(** * Network and signer resolution of the token bridge UI

    A shallow embedding of [useNetworksAndSigners.tsx] (the resolution state
    machine, its consumer context) and of the balance computation of
    [WithdrawalCardExecuted.tsx], with the properties of the specification
    stated and proved over it. *)

From Stdlib Require Import ZArith Bool List Lia.
From stdpp Require Import gmap strings list fin_maps.
Import ListNotations.

Local Open Scope Z_scope.
Local Open Scope string_scope.

(** ** Data model *)

(** [enum UseNetworksAndSignersStatus]. *)
Inductive UseNetworksAndSignersStatus :=
  | LOADING
  | NOT_CONNECTED
  | NOT_SUPPORTED
  | CONNECTED.

#[global] Instance UseNetworksAndSignersStatus_eq_dec :
  EqDecision UseNetworksAndSignersStatus.
Proof. solve_decision. Defined.

(** The string value of each member of the enum. *)
Definition status_value (s : UseNetworksAndSignersStatus) : string :=
  match s with
  | LOADING => "loading"
  | NOT_CONNECTED => "not_connected"
  | NOT_SUPPORTED => "not_supported"
  | CONNECTED => "connected"
  end.

(** [L2Network.ethBridge]. *)
Record EthBridge := {
  bridge : string;
  inbox : string;
  outbox : string;
  rollup : string;
  sequencerInbox : string
}.

(** [L2Network.tokenBridge]. *)
Record TokenBridge := {
  l1CustomGateway : string;
  l1ERC20Gateway : string;
  l1GatewayRouter : string;
  l1MultiCall : string;
  l1ProxyAdmin : string;
  l1Weth : string;
  l1WethGateway : string;
  l2CustomGateway : string;
  l2ERC20Gateway : string;
  l2GatewayRouter : string;
  l2Multicall : string;
  l2ProxyAdmin : string;
  l2Weth : string;
  l2WethGateway : string
}.

(** [L1Network]: the descriptor of a base chain, with the fields the source
    writes in its [customL1Network] literal. *)
Record L1Network := {
  l1_blockTime : Z;
  l1_chainID : Z;
  l1_explorerUrl : string;
  l1_isCustom : bool;
  l1_name : string;
  l1_partnerChainIDs : list Z;
  l1_rpcURL : string
}.

(** [L2Network]: the descriptor of a rollup chain, with the fields the source
    writes in its [customL2Network] literal. *)
Record L2Network := {
  l2_chainID : Z;
  l2_confirmPeriodBlocks : Z;
  l2_ethBridge : EthBridge;
  l2_explorerUrl : string;
  l2_isArbitrum : bool;
  l2_isCustom : bool;
  l2_name : string;
  l2_partnerChainID : Z;
  l2_rpcURL : string;
  l2_retryableLifetimeSeconds : Z;
  l2_tokenBridge : TokenBridge
}.

#[global] Instance EthBridge_eq_dec : EqDecision EthBridge.
Proof. solve_decision. Defined.
#[global] Instance TokenBridge_eq_dec : EqDecision TokenBridge.
Proof. solve_decision. Defined.
#[global] Instance L1Network_eq_dec : EqDecision L1Network.
Proof. solve_decision. Defined.
#[global] Instance L2Network_eq_dec : EqDecision L2Network.
Proof. solve_decision. Defined.

(** The wallet's [Web3Provider] object. [w_ref] is the identity of the
    JavaScript object (what a dependency array compares), [w_chainId] the
    chain identifier that [getNetwork()] answers, [None] when that call
    rejects. *)
Record Web3Provider := {
  w_ref : nat;
  w_chainId : option Z
}.

#[global] Instance Web3Provider_eq_dec : EqDecision Web3Provider.
Proof. solve_decision. Defined.

(** A provider handle is either the wallet's own provider or a
    [new JsonRpcProvider(url)]; [url] is the argument given to the
    constructor, [None] when the source passes [undefined]. *)
Inductive Provider :=
  | Web3 (w : Web3Provider)
  | JsonRpcProvider (url : option string).

#[global] Instance Provider_eq_dec : EqDecision Provider.
Proof. solve_decision. Defined.

(** What identifies a signer: an account index or an address. *)
Inductive SignerKey :=
  | ByIndex (i : Z)
  | ByAddress (address : string).

#[global] Instance SignerKey_eq_dec : EqDecision SignerKey.
Proof. solve_decision. Defined.

(** [JsonRpcSigner]: the provider it was derived from, and its [_index] or
    its [_address]. *)
Record JsonRpcSigner := {
  s_provider : Provider;
  s_key : SignerKey
}.

#[global] Instance JsonRpcSigner_eq_dec : EqDecision JsonRpcSigner.
Proof. solve_decision. Defined.

(** The address formatter of the [ethers] package ([formatter.address]),
    which is not part of the source, taken as a parameter: the checksum
    form of a well-formed address, [None] for a string that it rejects with
    an exception. *)
Definition AddressFormat : Type := string → option string.

(** [provider.getSigner(addressOrIndex)]: a signer taken by address holds
    the formatted address, and the call throws ([None]) when the formatter
    rejects the string. *)
Definition getSigner (fmt : AddressFormat) (p : Provider) (k : SignerKey)
    : option JsonRpcSigner :=
  match k with
  | ByIndex i => Some {| s_provider := p; s_key := ByIndex i |}
  | ByAddress address =>
      match fmt address with
      | Some formatted => Some {| s_provider := p; s_key := ByAddress formatted |}
      | None => None
      end
  end.

(** One side of the pairing: [{ network; signer; provider }]. *)
Record Side (N : Type) := {
  network : N;
  signer : JsonRpcSigner;
  provider : Provider
}.
Arguments network {N} _.
Arguments signer {N} _.
Arguments provider {N} _.

(** [UseNetworksAndSignersConnectedResult] (its [status] field is the
    constant [CONNECTED]). *)
Record UseNetworksAndSignersConnectedResult := {
  l1 : Side L1Network;
  l2 : Side L2Network;
  isConnectedToArbitrum : bool
}.

(** [UseNetworksAndSignersResult]: the union of the loading-or-error result
    and the connected result.  The first constructor is only built from the
    three statuses of [UseNetworksAndSignersLoadingOrErrorStatus]. *)
Inductive UseNetworksAndSignersResult :=
  | LoadingOrError (s : UseNetworksAndSignersStatus)
  | Connected (c : UseNetworksAndSignersConnectedResult).

#[global] Instance Side_eq_dec {N} `{EqDecision N} : EqDecision (Side N).
Proof. solve_decision. Defined.
#[global] Instance UseNetworksAndSignersConnectedResult_eq_dec :
  EqDecision UseNetworksAndSignersConnectedResult.
Proof. solve_decision. Defined.
#[global] Instance UseNetworksAndSignersResult_eq_dec :
  EqDecision UseNetworksAndSignersResult.
Proof. solve_decision. Defined.

(** [result.status]. *)
Definition status (r : UseNetworksAndSignersResult) : UseNetworksAndSignersStatus :=
  match r with
  | LoadingOrError s => s
  | Connected _ => CONNECTED
  end.

(** ** Initial status *)

(** [defaultStatus]: [typeof window.web3 === 'undefined' ? NOT_CONNECTED :
    LOADING].  The argument says whether [window.web3] is defined. *)
Definition defaultStatus (web3Defined : bool) : UseNetworksAndSignersStatus :=
  if negb web3Defined then NOT_CONNECTED else LOADING.

(** The initial value of the [result] state:
    [useState({ status: defaultStatus })]. *)
Definition initialResult (web3Defined : bool) : UseNetworksAndSignersResult :=
  LoadingOrError (defaultStatus web3Defined).

(** ** Consumer context *)

(** The value thrown by [useNetworksAndSigners]. *)
Inductive HookError :=
  | Error (message : string).

(** [useNetworksAndSigners]: [context] is the value read by
    [useContext(NetworksAndSignersContext)], [None] when it is [undefined]
    (the default of [createContext]).  A throw is the left injection. *)
Definition useNetworksAndSigners
    (context : option UseNetworksAndSignersConnectedResult)
    : HookError + UseNetworksAndSignersConnectedResult :=
  match context with
  | None =>
      inl (Error "The useNetworksAndSigners Hook must only be used inside NetworksAndSignersContext.Provider.")
  | Some c => inr c
  end.

(** What [NetworksAndSignersProvider] returns: the fallback render prop
    applied to a status, or the context provider around the children. *)
Inductive Rendered :=
  | Fallback (s : UseNetworksAndSignersStatus)
  | ContextProvider (value : UseNetworksAndSignersConnectedResult).

(** The last statements of [NetworksAndSignersProvider]. *)
Definition render (result : UseNetworksAndSignersResult) : Rendered :=
  match result with
  | LoadingOrError s => Fallback s
  | Connected c => ContextProvider c
  end.

(** The context value that a descendant of the rendered element reads:
    the value of the provider, or the default [undefined] when only the
    fallback is rendered. *)
Definition contextOf (r : Rendered) : option UseNetworksAndSignersConnectedResult :=
  match r with
  | Fallback _ => None
  | ContextProvider v => Some v
  end.

(** ** Tables and endpoints *)

(** The two tables that the source imports from [../util/networks] and that
    are not part of it, taken as parameters: [chainIdToDefaultL2ChainId] and
    [rpcURLs], both JavaScript objects keyed by a chain identifier (a missing
    key reads as [undefined], here [None]). *)
Record Networks := {
  chainIdToDefaultL2ChainId : gmap Z Z;
  rpcURLs : gmap Z string
}.

(** What the RPC endpoints answer: for the argument given to
    [new JsonRpcProvider(..)], the chain identifier that the endpoint
    reports, or [None] when it cannot be reached. *)
Definition Endpoints : Type := option string → option Z.

(** ** Network registry *)

(** Modelled from the spec: the network registry of the [@arbitrum/sdk]
    package ([addCustomNetwork], [getL1Network], [getL2Network]), which the
    source calls and which is not among its files.  A process-wide mapping
    from chain identifier to descriptor, one for base chains and one for
    rollup chains. *)
Record Registry := {
  l1Networks : gmap Z L1Network;
  l2Networks : gmap Z L2Network
}.

(** Modelled from the spec: [register(baseDescriptor, rollupDescriptor)] of
    the registry, missing from the source: adds the pair, matched by chain
    identifier; registering again with the same identifiers overwrites. *)
Definition register (pair : L1Network * L2Network) (reg : Registry) : Registry :=
  {| l1Networks := <[l1_chainID pair.1 := pair.1]> (l1Networks reg);
     l2Networks := <[l2_chainID pair.2 := pair.2]> (l2Networks reg) |}.

(** Modelled from the spec: [lookupBase(id)] of the registry, restricted as
    in step 3 of the resolver to a base descriptor that partners with the
    requested rollup identifier. *)
Definition lookupBase (reg : Registry) (id l2ChainId : Z) : option L1Network :=
  match l1Networks reg !! id with
  | Some d => if bool_decide (l2ChainId ∈ l1_partnerChainIDs d) then Some d else None
  | None => None
  end.

(** Modelled from the spec: [lookupRollup(id)] of the registry. *)
Definition lookupRollup (reg : Registry) (id : Z) : option L2Network :=
  l2Networks reg !! id.

(** ** Promises over the shared state *)

(** The state that a resolution reads and writes: the process-wide registry,
    the calls of [addCustomNetwork] made so far and the calls of [setResult]
    made so far (both latest first). *)
Record World := {
  registry : Registry;
  registered : list (L1Network * L2Network);
  published : list UseNetworksAndSignersResult
}.

(** A promise run to settlement: [None] is a rejection, and the state
    changes made before a rejection stay. *)
Definition Promise (A : Type) : Type := World → option A * World.

(** A promise fulfilled with [a]. *)
Definition resolve {A} (a : A) : Promise A := fun w => (Some a, w).

(** A rejected promise, also a [throw]. *)
Definition reject {A} : Promise A := fun w => (None, w).

(** [p.then(f)], also the sequencing of [await]. *)
Definition andThen {A B} (p : Promise A) (f : A → Promise B) : Promise B :=
  fun w =>
    match p w with
    | (Some a, w') => f a w'
    | (None, w') => (None, w')
    end.

(** [p.catch(h)]. *)
Definition catch {A} (p : Promise A) (h : Promise A) : Promise A :=
  fun w =>
    match p w with
    | (Some a, w') => (Some a, w')
    | (None, w') => h w'
    end.

Notation "'await' x <- p ;; k" := (andThen p (fun x => k))
  (at level 10, x name, p at level 99, k at level 200).
Notation "'perform' p ;; k" := (andThen p (fun _ => k))
  (at level 10, p at level 99, k at level 200).

(** A settled synchronous value as a promise. *)
Definition ofOption {A} (o : option A) : Promise A :=
  match o with
  | Some a => resolve a
  | None => reject
  end.

(** [setResult(r)]. *)
Definition setResult (r : UseNetworksAndSignersResult) : Promise unit :=
  fun w =>
    (Some tt,
     {| registry := registry w;
        registered := registered w;
        published := r :: published w |}).

(** Modelled from the spec: [addCustomNetwork({ customL1Network,
    customL2Network })] of [@arbitrum/sdk], missing from the source, as the
    registration of the pair.  The call is recorded in the log. *)
Definition addCustomNetwork (pair : L1Network * L2Network) : Promise unit :=
  fun w =>
    (Some tt,
     {| registry := register pair (registry w);
        registered := pair :: registered w;
        published := published w |}).

(** [provider.getNetwork()], giving the [chainId] of the answer. *)
Definition getNetwork (rpc : Endpoints) (p : Provider) : option Z :=
  match p with
  | Web3 w => w_chainId w
  | JsonRpcProvider url => rpc url
  end.

(** Modelled from the spec: [getL1Network(provider, l2ChainId)] of
    [@arbitrum/sdk], missing from the source: the base descriptor of the
    chain that the provider reports, when it partners with [l2ChainId]. *)
Definition getL1Network (rpc : Endpoints) (p : Provider) (l2ChainId : Z)
    : Promise L1Network :=
  fun w =>
    match getNetwork rpc p with
    | Some chainId => ofOption (lookupBase (registry w) chainId l2ChainId) w
    | None => reject w
    end.

(** Modelled from the spec: [getL2Network(provider)] of [@arbitrum/sdk],
    missing from the source: the rollup descriptor of the chain that the
    provider reports. *)
Definition getL2Network (rpc : Endpoints) (p : Provider) : Promise L2Network :=
  fun w =>
    match getNetwork rpc p with
    | Some chainId => ofOption (lookupRollup (registry w) chainId) w
    | None => reject w
    end.

(** ** The resolution function *)

(** The [customL1Network] literal of the [.then] branch of [update]. *)
Definition customL1Network_then : L1Network :=
  {| l1_blockTime := 10;
     l1_chainID := 1337;
     l1_explorerUrl := "";
     l1_isCustom := true;
     l1_name := "EthLocal";
     l1_partnerChainIDs := [412346];
     l1_rpcURL := "http://localhost:8545" |}.

(** The [customL2Network] literal of the [.then] branch of [update]. *)
Definition customL2Network_then : L2Network :=
  {| l2_chainID := 412346;
     l2_confirmPeriodBlocks := 20;
     l2_ethBridge :=
       {| bridge := "0xcaf1ded82e70c5af3d6585a1dcc3ff8f2ea42794";
          inbox := "0xc2c8f6ec5fcb9a9aeea4116a521594bf40ab6408";
          outbox := "0x86B30E87F64025085c7853E64355B97DE5D13393";
          rollup := "0x71b4f5764d732ddd5e34a9d60b7bf9f87905e7ed";
          sequencerInbox := "0x8cfc0044df41af12d4cbb6fd1c71aceafa503900" |};
     l2_explorerUrl := "";
     l2_isArbitrum := true;
     l2_isCustom := true;
     l2_name := "ArbLocal";
     l2_partnerChainID := 1337;
     l2_rpcURL := "http://localhost:8547";
     l2_retryableLifetimeSeconds := 604800;
     l2_tokenBridge :=
       {| l1CustomGateway := "0xDe67138B609Fbca38FcC2673Bbc5E33d26C5B584";
          l1ERC20Gateway := "0x0Bdb0992B3872DF911260BfB60D72607eb22d5d4";
          l1GatewayRouter := "0x4535771b8D5C43100f126EdACfEc7eb60d391312";
          l1MultiCall := "0x36BeF5fD671f2aA8686023dE4797A7dae3082D5F";
          l1ProxyAdmin := "0xF7818cd5f5Dc379965fD1C66b36C0C4D788E7cDB";
          l1Weth := "0x24067223381F042fF36fb87818196dB4D2C56E9B";
          l1WethGateway := "0xBa3d12E370a4b592AAF0CA1EF09971D196c27aAd";
          l2CustomGateway := "0xF0B003F9247f2DC0e874710eD55e55f8C63B14a3";
          l2ERC20Gateway := "0x78a6dC8D17027992230c112432E42EC3d6838d74";
          l2GatewayRouter := "0x7b650845242a96595f3a9766D4e8e5ab0887936A";
          l2Multicall := "0x9b890cA9dE3D317b165afA7DFb8C65f2e4c95C20";
          l2ProxyAdmin := "0x7F85fB7f42A0c0D40431cc0f7DFDf88be6495e67";
          l2Weth := "0x36BeF5fD671f2aA8686023dE4797A7dae3082D5F";
          l2WethGateway := "0x2E76efCC2518CB801E5340d5f140B1c1911b4F4B" |} |}.

(** The [customL1Network] literal of the [.catch] branch of [update]. *)
Definition customL1Network_catch : L1Network :=
  {| l1_blockTime := 10;
     l1_chainID := 1337;
     l1_explorerUrl := "";
     l1_isCustom := true;
     l1_name := "EthLocal";
     l1_partnerChainIDs := [412346];
     l1_rpcURL := "http://localhost:8545" |}.

(** The [customL2Network] literal of the [.catch] branch of [update]. *)
Definition customL2Network_catch : L2Network :=
  {| l2_chainID := 412346;
     l2_confirmPeriodBlocks := 20;
     l2_ethBridge :=
       {| bridge := "0xcaf1ded82e70c5af3d6585a1dcc3ff8f2ea42794";
          inbox := "0xc2c8f6ec5fcb9a9aeea4116a521594bf40ab6408";
          outbox := "0x86B30E87F64025085c7853E64355B97DE5D13393";
          rollup := "0x71b4f5764d732ddd5e34a9d60b7bf9f87905e7ed";
          sequencerInbox := "0x8cfc0044df41af12d4cbb6fd1c71aceafa503900" |};
     l2_explorerUrl := "";
     l2_isArbitrum := true;
     l2_isCustom := true;
     l2_name := "ArbLocal";
     l2_partnerChainID := 1337;
     l2_rpcURL := "http://localhost:8547";
     l2_retryableLifetimeSeconds := 604800;
     l2_tokenBridge :=
       {| l1CustomGateway := "0xDe67138B609Fbca38FcC2673Bbc5E33d26C5B584";
          l1ERC20Gateway := "0x0Bdb0992B3872DF911260BfB60D72607eb22d5d4";
          l1GatewayRouter := "0x4535771b8D5C43100f126EdACfEc7eb60d391312";
          l1MultiCall := "0x36BeF5fD671f2aA8686023dE4797A7dae3082D5F";
          l1ProxyAdmin := "0xF7818cd5f5Dc379965fD1C66b36C0C4D788E7cDB";
          l1Weth := "0x24067223381F042fF36fb87818196dB4D2C56E9B";
          l1WethGateway := "0xBa3d12E370a4b592AAF0CA1EF09971D196c27aAd";
          l2CustomGateway := "0xF0B003F9247f2DC0e874710eD55e55f8C63B14a3";
          l2ERC20Gateway := "0x78a6dC8D17027992230c112432E42EC3d6838d74";
          l2GatewayRouter := "0x7b650845242a96595f3a9766D4e8e5ab0887936A";
          l2Multicall := "0x9b890cA9dE3D317b165afA7DFb8C65f2e4c95C20";
          l2ProxyAdmin := "0x7F85fB7f42A0c0D40431cc0f7DFDf88be6495e67";
          l2Weth := "0x36BeF5fD671f2aA8686023dE4797A7dae3082D5F";
          l2WethGateway := "0x2E76efCC2518CB801E5340d5f140B1c1911b4F4B" |} |}.

(** The requested rollup identifier [_selectedL2ChainId] of [update]: the
    [selectedL2ChainId] property when it is defined, otherwise the entry of
    [chainIdToDefaultL2ChainId] for the wallet's chain, [None] when that
    entry is [undefined] too. *)
Definition requestedL2ChainId (util : Networks) (selectedL2ChainId : option Z)
    (providerChainId : Z) : option Z :=
  match selectedL2ChainId with
  | Some id => Some id
  | None => chainIdToDefaultL2ChainId util !! providerChainId
  end.

(** The body of the [.then] callback of [update]: the wallet is on the base
    chain [l1Network]. *)
Definition connectedToL1 (util : Networks) (rpc : Endpoints) (fmt : AddressFormat)
    (web3Provider : Web3Provider) (address : string) (_selectedL2ChainId : Z)
    (l1Network : L1Network) : Promise unit :=
  let l2Provider := JsonRpcProvider (rpcURLs util !! _selectedL2ChainId) in
  perform addCustomNetwork (customL1Network_then, customL2Network_then) ;;
  await l2Network <- getL2Network rpc l2Provider ;;
  let l1Provider := JsonRpcProvider (rpcURLs util !! l1_chainID l1Network) in
  await l1Signer <- ofOption (getSigner fmt (Web3 web3Provider) (ByIndex 0)) ;;
  await l2Signer <- ofOption (getSigner fmt l2Provider (ByAddress address)) ;;
  setResult (Connected
    {| l1 := {| network := l1Network;
                signer := l1Signer;
                provider := l1Provider |};
       l2 := {| network := l2Network;
                signer := l2Signer;
                provider := l2Provider |};
       isConnectedToArbitrum := false |}).

(** [getL1Network(web3Provider, _selectedL2ChainId).then(..)]: the attempt
    to read the wallet connection as a base-chain connection. *)
Definition baseInterpretation (util : Networks) (rpc : Endpoints)
    (fmt : AddressFormat)
    (web3Provider : Web3Provider) (address : string) (_selectedL2ChainId : Z)
    : Promise unit :=
  await l1Network <- getL1Network rpc (Web3 web3Provider) _selectedL2ChainId ;;
  connectedToL1 util rpc fmt web3Provider address _selectedL2ChainId l1Network.

(** The body of the [.then] callback of [getL2Network(web3Provider)]: the
    wallet is on the rollup chain [l2Network]. *)
Definition connectedToL2 (util : Networks) (rpc : Endpoints) (fmt : AddressFormat)
    (web3Provider : Web3Provider) (address : string) (_selectedL2ChainId : Z)
    (l2Network : L2Network) : Promise unit :=
  let l1NetworkChainId := l2_partnerChainID l2Network in
  let l1Provider := JsonRpcProvider (rpcURLs util !! l1NetworkChainId) in
  await l1Network <- getL1Network rpc l1Provider _selectedL2ChainId ;;
  let l2Provider := JsonRpcProvider (rpcURLs util !! l2_chainID l2Network) in
  await l1Signer <- ofOption (getSigner fmt l1Provider (ByAddress address)) ;;
  await l2Signer <- ofOption (getSigner fmt (Web3 web3Provider) (ByIndex 0)) ;;
  setResult (Connected
    {| l1 := {| network := l1Network;
                signer := l1Signer;
                provider := l1Provider |};
       l2 := {| network := l2Network;
                signer := l2Signer;
                provider := l2Provider |};
       isConnectedToArbitrum := true |}).

(** [await p] where it is written in a function that is not [async]: no
    await expression; the function throws there and [p] is not run. *)
Definition awaitOutsideAsync {A} (p : Promise A) : Promise A := reject.

(** The body of the [.catch] callback of [update]: the attempt to read the
    wallet connection as a rollup-chain connection.  The callback is a
    plain arrow function ([.catch(() => {], line 317), unlike the two
    [.then] callbacks, which are [async]: after the test of the chain
    identifiers its [await addCustomNetwork(..)] (line 326) throws, and the
    statements after it are never reached. *)
Definition rollupInterpretation (util : Networks) (rpc : Endpoints)
    (fmt : AddressFormat)
    (web3Provider : Web3Provider) (address : string)
    (providerChainId _selectedL2ChainId : Z) : Promise unit :=
  if negb (providerChainId =? _selectedL2ChainId)%Z then
    setResult (LoadingOrError NOT_SUPPORTED)
  else
    perform awaitOutsideAsync
      (addCustomNetwork (customL1Network_catch, customL2Network_catch)) ;;
    catch
      (await l2Network <- getL2Network rpc (Web3 web3Provider) ;;
       connectedToL2 util rpc fmt web3Provider address _selectedL2ChainId l2Network)
      (setResult (LoadingOrError NOT_SUPPORTED)).

(** [update(web3Provider, address)], with the [selectedL2ChainId] property
    that its closure captures.  The promise chain is run to settlement. *)
Definition update (util : Networks) (rpc : Endpoints) (fmt : AddressFormat)
    (selectedL2ChainId : option Z)
    (web3Provider : Web3Provider) (address : string) : Promise unit :=
  await providerChainId <- ofOption (getNetwork rpc (Web3 web3Provider)) ;;
  match requestedL2ChainId util selectedL2ChainId providerChainId with
  | None => setResult (LoadingOrError NOT_SUPPORTED)
  | Some _selectedL2ChainId =>
      catch
        (baseInterpretation util rpc fmt web3Provider address _selectedL2ChainId)
        (rollupInterpretation util rpc fmt web3Provider address
           providerChainId _selectedL2ChainId)
  end.

(** The result that a run of [update] publishes: the argument of its last
    call of [setResult], [None] when it makes no call. *)
Definition outcome (util : Networks) (rpc : Endpoints) (fmt : AddressFormat)
    (selectedL2ChainId : option Z) (web3Provider : Web3Provider)
    (address : string) (reg : Registry) : option UseNetworksAndSignersResult :=
  head (published
    (update util rpc fmt selectedL2ChainId web3Provider address
       {| registry := reg; registered := []; published := [] |}).2).

(** The pairs that a run of [update] hands to [addCustomNetwork], latest
    first. *)
Definition registrations (util : Networks) (rpc : Endpoints)
    (fmt : AddressFormat)
    (selectedL2ChainId : option Z) (web3Provider : Web3Provider)
    (address : string) (reg : Registry) : list (L1Network * L2Network) :=
  registered
    (update util rpc fmt selectedL2ChainId web3Provider address
       {| registry := reg; registered := []; published := [] |}).2.

(** A supported pair: the base descriptor [b] and the rollup descriptor [r]
    are both in the registry, [b] lists the chain of [r] among its
    partners, and the endpoint that the table lists for the rollup answers
    with its chain identifier. *)
Record Supported (util : Networks) (rpc : Endpoints) (reg : Registry)
    (b : L1Network) (r : L2Network) : Prop := {
  base_registered : l1Networks reg !! l1_chainID b = Some b;
  rollup_registered : l2Networks reg !! l2_chainID r = Some r;
  base_partners_rollup : l2_chainID r ∈ l1_partnerChainIDs b;
  rollup_endpoint : rpc (rpcURLs util !! l2_chainID r) = Some (l2_chainID r)
}.

(** ** The provider component *)

(** The [network] object of [useWallet()]: its identity and its chain. *)
Record WalletNetwork := {
  n_ref : nat;
  n_chainId : Z
}.

(** What [useWallet()] returns to a render: [provider], [account] and
    [network], each possibly [undefined]. *)
Record Wallet := {
  wallet_provider : option Web3Provider;
  wallet_account : option string;
  wallet_network : option WalletNetwork
}.

(** The [provider.provider] object that [getProviderName] inspects. *)
Record ExternalProvider := {
  isMetaMask : bool;
  isCoinbaseWallet : bool;
  isWalletConnect : bool
}.

(** [type ProviderName]. *)
Inductive ProviderName :=
  | MetaMask
  | CoinbaseWallet
  | WalletConnect.

(** [getProviderName]. *)
Definition getProviderName (p : ExternalProvider) : option ProviderName :=
  if isMetaMask p then Some MetaMask
  else if isCoinbaseWallet p then Some CoinbaseWallet
  else if isWalletConnect p then Some WalletConnect
  else None.

(** [tryConnect]: [connection] is the settlement of
    [connect(modalProviderOpts)], [None] when it rejects.  The value is the
    argument of the call of [setResult], if one is made. *)
Definition tryConnect (connection : option ExternalProvider)
    : option UseNetworksAndSignersResult :=
  match connection with
  | Some _ => None
  | None => Some (LoadingOrError NOT_CONNECTED)
  end.

(** The body of the first effect (reset on manual disconnection): the
    argument of its call of [setResult], if it makes one. *)
Definition resetEffect (account : option string)
    (result : UseNetworksAndSignersResult) : option UseNetworksAndSignersResult :=
  let connected := bool_decide (status result = CONNECTED) in
  if connected && bool_decide (account = None)
  then Some (LoadingOrError NOT_CONNECTED)
  else None.

(** The body of the last effect: the arguments of its call of [update], if
    it makes one.  An object is truthy; a string is truthy when it is not
    empty. *)
Definition updateEffect (w : Wallet) : option (Web3Provider * string) :=
  match wallet_provider w, wallet_account w, wallet_network w with
  | Some provider, Some account, Some _ =>
      if bool_decide (account = "") then None else Some (provider, account)
  | _, _, _ => None
  end.

(** A call of [update] whose promise chain has not settled: the
    [selectedL2ChainId] captured by the callback and its two arguments. *)
Record Attempt := {
  a_selectedL2ChainId : option Z;
  a_web3Provider : Web3Provider;
  a_address : string
}.

(** The values that the dependency arrays of the last committed render
    hold. *)
Record Deps := {
  d_selectedL2ChainId : option Z;
  d_wallet : Wallet;
  d_result : UseNetworksAndSignersResult
}.

(** The state of a mounted [NetworksAndSignersProvider]: the initial value
    of its [result] state, the shared state with the log of [setResult]
    calls, the dependencies of the last commit ([None] before the first),
    and the calls of [update] that are in flight, numbered in the order in
    which they were started.  The numbers only name the promises in this
    model; the source has no such counter. *)
Record Component := {
  initial : UseNetworksAndSignersResult;
  world : World;
  rendered : option Deps;
  pending : gmap nat Attempt;
  started : nat
}.

(** The current value of the [result] state. *)
Definition result (c : Component) : UseNetworksAndSignersResult :=
  hd (initial c) (published (world c)).

(** A component before its first render. *)
Definition mount (web3Defined : bool) (reg : Registry) : Component :=
  {| initial := initialResult web3Defined;
     world := {| registry := reg; registered := []; published := [] |};
     rendered := None;
     pending := ∅;
     started := 0%nat |}.

(** A synchronous [setResult(r)] made by an effect. *)
Definition publish (r : UseNetworksAndSignersResult) (c : Component) : Component :=
  {| initial := initial c;
     world := (setResult r (world c)).2;
     rendered := rendered c;
     pending := pending c;
     started := started c |}.

(** A call [update(provider, account)] made by the last effect: the chain
    is now in flight. *)
Definition start (a : Attempt) (c : Component) : Component :=
  {| initial := initial c;
     world := world c;
     rendered := rendered c;
     pending := <[started c := a]> (pending c);
     started := S (started c) |}.

(** Did the dependencies [account, result] of the first effect change?
    React compares [result] by identity; the body reads only [account] and
    [result.status], so comparing by value runs it whenever it can act. *)
Definition resetDepsChanged (prev : option Deps) (w : Wallet)
    (r : UseNetworksAndSignersResult) : bool :=
  match prev with
  | None => true
  | Some d =>
      negb (bool_decide (wallet_account (d_wallet d) = wallet_account w))
      || negb (bool_decide (d_result d = r))
  end.

(** Did the dependencies [provider, account, network, update] of the last
    effect change?  Objects are compared by identity; [update] is a new
    callback exactly when [selectedL2ChainId] changed. *)
Definition updateDepsChanged (prev : option Deps) (sel : option Z) (w : Wallet)
    : bool :=
  match prev with
  | None => true
  | Some d =>
      negb (bool_decide (w_ref <$> wallet_provider (d_wallet d) = w_ref <$> wallet_provider w))
      || negb (bool_decide (wallet_account (d_wallet d) = wallet_account w))
      || negb (bool_decide (n_ref <$> wallet_network (d_wallet d) = n_ref <$> wallet_network w))
      || negb (bool_decide (d_selectedL2ChainId d = sel))
  end.

(** One commit of a render with the property [sel] and the wallet values
    [w]: the effects whose dependencies changed run in the order of the
    source, each seeing the [result] of this render. *)
Definition commit (sel : option Z) (w : Wallet) (c : Component) : Component :=
  let r := result c in
  let prev := rendered c in
  let c1 :=
    if resetDepsChanged prev w r then
      match resetEffect (wallet_account w) r with
      | Some r' => publish r' c
      | None => c
      end
    else c in
  let c2 :=
    if updateDepsChanged prev sel w then
      match updateEffect w with
      | Some (provider, account) =>
          start {| a_selectedL2ChainId := sel;
                   a_web3Provider := provider;
                   a_address := account |} c1
      | None => c1
      end
    else c1 in
  {| initial := initial c2;
     world := world c2;
     rendered := Some {| d_selectedL2ChainId := sel; d_wallet := w; d_result := r |};
     pending := pending c2;
     started := started c2 |}.

(** The render that a change of the [result] state causes: same property,
    same wallet values, new [result]. *)
Definition rerender (c : Component) : Component :=
  match rendered c with
  | Some d =>
      if bool_decide (d_result d = result c) then c
      else commit (d_selectedL2ChainId d) (d_wallet d) c
  | None => c
  end.

(** The renders that follow a call of [setResult]: the first sees the new
    [result]; when its reset effect calls [setResult] in turn, the second
    sees that one.  No further render follows (lemma [renders_stable]). *)
Definition renders (c : Component) : Component :=
  rerender (rerender c).

(** The promise chain of the attempt [a] settles: its registrations and its
    call of [setResult] take effect.  The chain is run in one step; every
    path of [update] calls [setResult] last, so the step is the time of
    publication. *)
Definition settle (util : Networks) (rpc : Endpoints) (fmt : AddressFormat)
    (n : nat) (a : Attempt)
    (c : Component) : Component :=
  {| initial := initial c;
     world :=
       (update util rpc fmt (a_selectedL2ChainId a) (a_web3Provider a)
          (a_address a) (world c)).2;
     rendered := rendered c;
     pending := delete n (pending c);
     started := started c |}.

(** What happens to a mounted component. *)
Inductive Event :=
  | WalletState (sel : option Z) (w : Wallet)
  | Settled (n : nat)
  | ConnectSettled (connection : option ExternalProvider).

(** The reaction of the component to one event. *)
Definition step (util : Networks) (rpc : Endpoints) (fmt : AddressFormat)
    (e : Event) (c : Component)
    : Component :=
  match e with
  | WalletState sel w => renders (commit sel w c)
  | Settled n =>
      match pending c !! n with
      | Some a => renders (settle util rpc fmt n a c)
      | None => c
      end
  | ConnectSettled connection =>
      match tryConnect connection with
      | Some r => renders (publish r c)
      | None => c
      end
  end.

(** The reaction to a sequence of events, first event first. *)
Definition run (util : Networks) (rpc : Endpoints) (fmt : AddressFormat)
    (es : list Event)
    (c : Component) : Component :=
  fold_left (fun c e => step util rpc fmt e c) es c.

(** ** The balance of an executed withdrawal *)

(** The value of the [balance] memo: [null], [undefined] or a
    [BigNumber]. *)
Inductive JsBalance :=
  | Null
  | Undefined
  | BigNumber (value : Z).

(** A [BigNumber | null] field. *)
Definition ofNullable (b : option Z) : JsBalance :=
  match b with
  | Some n => BigNumber n
  | None => Null
  end.

(** The fields of [MergedTransaction] that the balance reads. *)
Record MergedTransaction := {
  asset : string;
  tokenAddress : option string
}.

(** [arbTokenBridge.balances]: [eth.balance] and the [erc20] object, whose
    entries hold a [balance] field each. *)
Record Balances := {
  eth_balance : option Z;
  erc20 : gmap string (option Z)
}.

(** The field of [arbTokenBridge] that the balance reads, [None] when it is
    missing. *)
Record ArbTokenBridge := {
  balances : option Balances
}.

(** [!tx.tokenAddress] is false: the field is a non-empty string. *)
Definition tokenAddressPresent (tx : MergedTransaction) : option string :=
  match tokenAddress tx with
  | Some a => if bool_decide (a = "") then None else Some a
  | None => None
  end.

(** [balances.erc20[a]?.balance]: [undefined] when the token has no
    entry. *)
Definition erc20Balance (bs : Balances) (a : string) : JsBalance :=
  match erc20 bs !! a with
  | Some entry => ofNullable entry
  | None => Undefined
  end.

(** The callback of the [balance] memo of [WithdrawalCardExecuted]. *)
Definition balance (arbTokenBridge : option ArbTokenBridge)
    (tx : MergedTransaction) : JsBalance :=
  match arbTokenBridge with
  | None => Null
  | Some b =>
      match balances b with
      | None => Null
      | Some bs =>
          if bool_decide (asset tx = "eth") then ofNullable (eth_balance bs)
          else
            match tokenAddressPresent tx with
            | None => Null
            | Some a => erc20Balance bs a
            end
      end
  end.

(** What the card shows after "New balance:". *)
Inductive NewBalance :=
  | Amount (value : Z)
  | Loader.

(** [balance ? <span>..</span> : <Loader />]; a [BigNumber] object is
    truthy. *)
Definition newBalance (b : JsBalance) : NewBalance :=
  match b with
  | BigNumber n => Amount n
  | Null | Undefined => Loader
  end.

(** ** A local test network

    The tables, endpoints and registry of a developer's machine on which
    both local chains run, used to evaluate the definitions. *)

Definition emptyRegistry : Registry :=
  {| l1Networks := ∅; l2Networks := ∅ |}.

(** The registry once the fixed pair of [update] has been registered. *)
Definition seededRegistry : Registry :=
  register (customL1Network_then, customL2Network_then) emptyRegistry.

(** Tables that list the endpoints named in the two descriptors. *)
Definition localNetworks : Networks :=
  {| chainIdToDefaultL2ChainId := {[ 1337 := 412346; 412346 := 412346 ]};
     rpcURLs := {[ 1337 := "http://localhost:8545";
                   412346 := "http://localhost:8547" ]} |}.

(** Tables that list other endpoints for the same two chains. *)
Definition proxiedNetworks : Networks :=
  {| chainIdToDefaultL2ChainId := {[ 1337 := 412346; 412346 := 412346 ]};
     rpcURLs := {[ 1337 := "http://rpc.example:9545";
                   412346 := "http://rpc.example:9547" ]} |}.

(** Endpoints: the two local nodes and the two proxies in front of them. *)
Definition localEndpoints : Endpoints :=
  fun url =>
    match url with
    | Some u =>
        if bool_decide (u = "http://localhost:8545") then Some 1337
        else if bool_decide (u = "http://localhost:8547") then Some 412346
        else if bool_decide (u = "http://rpc.example:9545") then Some 1337
        else if bool_decide (u = "http://rpc.example:9547") then Some 412346
        else None
    | None => None
    end.

(** A formatter that knows the addresses written without letters, "0x" and
    forty decimal digits: the checksum form of such an address is the
    address itself.  Every other string is rejected. *)
Definition localAddresses : AddressFormat :=
  fun a =>
    if String.prefix "0x" a
       && (String.length a =? 42)%nat
       && forallb (fun ch => (48 <=? Ascii.nat_of_ascii ch)%nat
                             && (Ascii.nat_of_ascii ch <=? 57)%nat)
            (String.list_ascii_of_string (String.substring 2 40 a))
    then Some a
    else None.

(** Two account addresses of the local network. *)
Definition sampleAccount : string :=
  "0x1000000000000000000000000000000000000001".

Definition otherAccount : string :=
  "0x2000000000000000000000000000000000000002".

(** A second base chain that lists the local rollup among its partners. *)
Definition secondBase : L1Network :=
  {| l1_blockTime := 15;
     l1_chainID := 5;
     l1_explorerUrl := "";
     l1_isCustom := true;
     l1_name := "SecondBase";
     l1_partnerChainIDs := [412346];
     l1_rpcURL := "http://localhost:8555" |}.

(** The seeded registry with the second base chain in it. *)
Definition twoBaseRegistry : Registry :=
  {| l1Networks := <[5 := secondBase]> (l1Networks seededRegistry);
     l2Networks := l2Networks seededRegistry |}.

(** A wallet provider attached to the chain [chainId]. *)
Definition walletOn (ref : nat) (chainId : Z) : Web3Provider :=
  {| w_ref := ref; w_chainId := Some chainId |}.

(** The values of [useWallet()] for an unlocked wallet on [chainId]. *)
Definition walletState (ref : nat) (chainId : Z) (account : string) : Wallet :=
  {| wallet_provider := Some (walletOn ref chainId);
     wallet_account := Some account;
     wallet_network := Some {| n_ref := ref; n_chainId := chainId |} |}.

(** A bridge state and two transactions to evaluate [balance] on. *)
Definition sampleBridge : ArbTokenBridge :=
  {| balances := Some {| eth_balance := Some 5;
                         erc20 := {[ "0xtoken" := Some 7 ]} |} |}.

Definition ethWithdrawal : MergedTransaction :=
  {| asset := "eth"; tokenAddress := None |}.

Definition tokenWithdrawal : MergedTransaction :=
  {| asset := "dai"; tokenAddress := Some "0xtoken" |}.

(** ** Sample runs of the component *)

(** A component on the local network that has resolved a wallet on the
    base chain. *)
Definition connectedComponent : Component :=
  run localNetworks localEndpoints localAddresses
    [WalletState (Some 412346) (walletState 0 1337 sampleAccount); Settled 0%nat]
    (mount true seededRegistry).

(** The values of [useWallet()] once the user has locked the wallet: the
    account is [undefined]. *)
Definition lockedWallet : Wallet :=
  {| wallet_provider := Some (walletOn 0 1337);
     wallet_account := None;
     wallet_network := Some {| n_ref := 0; n_chainId := 1337 |} |}.

(** The wallet is first on the unknown chain 999999 (attempt 0), then the
    user switches to the base chain 1337 (attempt 1); both resolutions are
    in flight. *)
Definition twoInFlight : Component :=
  run localNetworks localEndpoints localAddresses
    [WalletState (Some 412346) (walletState 0 999999 sampleAccount);
     WalletState (Some 412346) (walletState 1 1337 sampleAccount)]
    (mount true seededRegistry).

(** ** Further parts of the source *)

(** The string value of each member of [type ProviderName]. *)
Definition providerNameValue (n : ProviderName) : string :=
  match n with
  | MetaMask => "MetaMask"
  | CoinbaseWallet => "Coinbase Wallet"
  | WalletConnect => "WalletConnect"
  end.

(** The argument of the call of [trackEvent] that [tryConnect] makes, if it
    makes one: [connection] is the settlement of [connect(modalProviderOpts)],
    [None] when it rejects. *)
Definition trackedEvent (connection : option ExternalProvider) : option string :=
  match connection with
  | Some p =>
      match getProviderName p with
      | Some providerName =>
          Some ("Connect Wallet Click: " ++ providerNameValue providerName)
      | None => None
      end
  | None => None
  end.

(** The first effect of [WithdrawalCardExecuted] ("add token to bridge just
    in case"): the argument of its call of [arbTokenBridge.token.add], if it
    makes one.  [bridgeTokens] is the [arbTokenBridge.bridgeTokens] object,
    whose type is not part of the source; a key that is missing or holds
    [undefined] is a missing key here. *)
Definition addTokenEffect {T} (bridgeTokens : gmap string T)
    (tx : MergedTransaction) : option string :=
  match tokenAddressPresent tx with
  | Some a =>
      match bridgeTokens !! a with
      | Some _ => None
      | None => Some a
      end
  | None => None
  end.

(** The action that the timeout of [WithdrawalCardExecuted] dispatches:
    [{ type: 'set_tx_as_seen', payload: tx.txId }]. *)
Inductive AppAction :=
  | SetTxAsSeen (txId : string).

(** The delay of the timeout, in milliseconds: [60 * 1000]. *)
Definition seenDelay : N := (60 * 1000)%N.

(** A mounted or unmounted card: the timeout that is armed (milliseconds
    left and the [tx.txId] that its callback closes over), the value of the
    dependency [tx.txId] at the last commit ([None] when the card is not
    mounted), and the actions dispatched so far, latest first. *)
Record Card := {
  timeout : option (N * string);
  cardDeps : option string;
  dispatched : list AppAction
}.

(** A card that is not mounted. *)
Definition noCard : Card :=
  {| timeout := None; cardDeps := None; dispatched := [] |}.

(** What happens to a card: a render with the identifier [txId] (the first
    one mounts it), the passing of [ms] milliseconds, the unmounting. *)
Inductive CardEvent :=
  | CardRendered (txId : string)
  | Elapsed (ms : N)
  | CardUnmounted.

(** The timeout effect of [WithdrawalCardExecuted] and its cleanup.  The
    effect runs when [tx.txId] changed: the cleanup of the previous run
    clears its timeout and a new one is armed.  A timeout that is due runs
    its callback once. *)
Definition cardStep (e : CardEvent) (c : Card) : Card :=
  match e with
  | CardRendered txId =>
      if bool_decide (cardDeps c = Some txId) then c
      else {| timeout := Some (seenDelay, txId);
              cardDeps := Some txId;
              dispatched := dispatched c |}
  | Elapsed ms =>
      match timeout c with
      | Some (remaining, txId) =>
          if (remaining <=? ms)%N then
            {| timeout := None;
               cardDeps := cardDeps c;
               dispatched := SetTxAsSeen txId :: dispatched c |}
          else
            {| timeout := Some ((remaining - ms)%N, txId);
               cardDeps := cardDeps c;
               dispatched := dispatched c |}
      | None => c
      end
  | CardUnmounted =>
      {| timeout := None; cardDeps := None; dispatched := dispatched c |}
  end.

(** The reaction of a card to a sequence of events, first event first. *)
Definition cardRun (es : list CardEvent) (c : Card) : Card :=
  fold_left (fun c e => cardStep e c) es c.

(** The total of the time that a sequence of events lets pass. *)
Definition elapsedTotal (es : list CardEvent) : N :=
  fold_right (fun e t => match e with Elapsed ms => (ms + t)%N | _ => t end) 0%N es.

(** ** Statements about results and components *)

(** A signer keyed by an address, keyed by [address] instead; a signer
    taken by index is left alone. *)
Definition rekeySigner (address : string) (s : JsonRpcSigner) : JsonRpcSigner :=
  match s_key s with
  | ByAddress _ => {| s_provider := s_provider s; s_key := ByAddress address |}
  | ByIndex _ => s
  end.

(** One side with its signer keyed by [address]. *)
Definition rekeySide {D} (address : string) (s : Side D) : Side D :=
  {| network := network s;
     signer := rekeySigner address (signer s);
     provider := provider s |}.

(** A result with its address-keyed signers keyed by [address]. *)
Definition rekey (address : string) (r : UseNetworksAndSignersResult)
    : UseNetworksAndSignersResult :=
  match r with
  | LoadingOrError s => LoadingOrError s
  | Connected c =>
      Connected {| l1 := rekeySide address (l1 c);
                   l2 := rekeySide address (l2 c);
                   isConnectedToArbitrum := isConnectedToArbitrum c |}
  end.

(** The in-flight attempts carry numbers below the count of the calls of
    [update], and each was called with a non-empty address. *)
Definition attemptsNumbered (c : Component) : Prop :=
  ∀ n a, pending c !! n = Some a → (n < started c)%nat ∧ a_address a ≠ "".

(** A value of the union type: the loading-or-error form never carries the
    status [connected]. *)
Definition wellTyped (r : UseNetworksAndSignersResult) : Prop :=
  r ≠ LoadingOrError CONNECTED.

(** Every value that the [result] state has held is of the union type. *)
Definition resultsWellTyped (c : Component) : Prop :=
  wellTyped (initial c) ∧ Forall wellTyped (published (world c)).

(** The last render is in step with the [result] state, and it shows no
    connected result while its account is absent. *)
Definition settledRender (c : Component) : Prop :=
  ∀ d, rendered c = Some d →
       d_result d = result c
       ∧ (wallet_account (d_wallet d) = None → status (result c) ≠ CONNECTED).

(** ** Proof support *)

(** A promise is framed when the two logs that it finds do not influence
    it: it puts its own entries in front of them. *)
Definition Framed {A} (m : Promise A) : Prop :=
  ∀ reg rs ps,
    m {| registry := reg; registered := rs; published := ps |}
    = ((m {| registry := reg; registered := []; published := [] |}).1,
       {| registry :=
            registry (m {| registry := reg; registered := []; published := [] |}).2;
          registered :=
            (registered (m {| registry := reg; registered := []; published := [] |}).2
             ++ rs)%list;
          published :=
            (published (m {| registry := reg; registered := []; published := [] |}).2
             ++ ps)%list |}).

Create HintDb framed.

Ltac unfold_update :=
  unfold outcome, registrations, update, baseInterpretation, rollupInterpretation,
    connectedToL1, connectedToL2, awaitOutsideAsync, getL1Network, getL2Network,
    addCustomNetwork, getSigner, setResult, andThen, catch, ofOption, resolve,
    reject, getNetwork in *.

Ltac promise_simpl :=
  cbn beta iota zeta delta [registry registered published fst snd head negb].

(** * Properties *)

(** ** Initial status *)

Lemma defaultStatus_cases (web3Defined : bool) :
  defaultStatus web3Defined = if web3Defined then LOADING else NOT_CONNECTED.
Proof. by destruct web3Defined. Qed.

(** C5, as stated, fails: in an environment where [window.web3] is
    undefined the component starts in [not_connected], not in [loading],
    and it does so before any wallet state is known. *)
Lemma initial_status_without_web3 :
  status (result (mount false emptyRegistry)) = NOT_CONNECTED
  ∧ status (result (mount false emptyRegistry)) ≠ LOADING
  ∧ rendered (mount false emptyRegistry) = None.
Proof. split; [reflexivity | split; [discriminate | reflexivity]]. Qed.

Lemma initial_status_cases (web3Defined : bool) (reg : Registry) :
  status (result (mount web3Defined reg))
  = (if web3Defined then LOADING else NOT_CONNECTED).
Proof. unfold result, mount, initialResult. simpl. apply defaultStatus_cases. Qed.

(** ** Consumer context *)

(** C8: outside a provisioning scope (no context value installed, which is
    also the case while only the fallback is rendered) the accessor throws;
    inside the scope it returns the current connected result. *)
Theorem useNetworksAndSigners_scope :
  (∃ message, useNetworksAndSigners None = inl (Error message))
  ∧ (∀ s, useNetworksAndSigners (contextOf (render (LoadingOrError s)))
          = useNetworksAndSigners None)
  ∧ (∀ c, useNetworksAndSigners (contextOf (render (Connected c))) = inr c)
  ∧ (∀ context c, useNetworksAndSigners context = inr c ↔ context = Some c).
Proof.
  split; [by eexists |]. split; [done |]. split; [done |].
  intros [c'|] c; simpl; split; intros H; by inversion H.
Qed.

(** ** The balance of an executed withdrawal *)

Lemma tokenAddressPresent_Some (tx : MergedTransaction) (a : string) :
  tokenAddressPresent tx = Some a ↔ tokenAddress tx = Some a ∧ a ≠ "".
Proof.
  unfold tokenAddressPresent. destruct (tokenAddress tx) as [a'|].
  - case_bool_decide as Hempty; split.
    + discriminate.
    + intros [[= ->] Hne]. done.
    + intros [= ->]. done.
    + intros [[= ->] _]. done.
  - split; [discriminate | intros [[=] _]].
Qed.



(** ** Network registry *)

Lemma register_idem (pair : L1Network * L2Network) (reg : Registry) :
  register pair (register pair reg) = register pair reg.
Proof. unfold register. simpl. by rewrite !insert_insert_eq. Qed.

(** C4: registration is idempotent.  Registering a pair twice gives the
    registry that registering it once gives; the second call does not fail,
    adds no identifier that the first did not add, and leaves the entries
    of every other chain as they were. *)
Theorem register_twice (pair : L1Network * L2Network) (reg : Registry) :
  register pair (register pair reg) = register pair reg
  ∧ (∀ w, (addCustomNetwork pair (addCustomNetwork pair w).2).1 = Some tt
          ∧ registry (addCustomNetwork pair (addCustomNetwork pair w).2).2
            = registry (addCustomNetwork pair w).2)
  ∧ dom (l1Networks (register pair (register pair reg)))
    = {[ l1_chainID pair.1 ]} ∪ dom (l1Networks reg)
  ∧ dom (l2Networks (register pair (register pair reg)))
    = {[ l2_chainID pair.2 ]} ∪ dom (l2Networks reg)
  ∧ l1Networks (register pair (register pair reg)) !! l1_chainID pair.1 = Some pair.1
  ∧ l2Networks (register pair (register pair reg)) !! l2_chainID pair.2 = Some pair.2
  ∧ (∀ id, id ≠ l1_chainID pair.1 →
       l1Networks (register pair (register pair reg)) !! id = l1Networks reg !! id)
  ∧ (∀ id, id ≠ l2_chainID pair.2 →
       l2Networks (register pair (register pair reg)) !! id = l2Networks reg !! id).
Proof.
  rewrite register_idem. split; [done |]. split.
  { intros w. split; [done |]. simpl. apply register_idem. }
  unfold register; simpl.
  rewrite !dom_insert_L, !lookup_insert_eq.
  repeat split; intros id Hid; by rewrite lookup_insert_ne.
Qed.

(** Registering the fixed pair twice in an empty registry: the entry of
    another chain stays absent. *)
Lemma register_twice_witness :
  l1Networks
    (register (customL1Network_then, customL2Network_then)
       (register (customL1Network_then, customL2Network_then) emptyRegistry))
    !! 1 = None
  ∧ l2Networks
    (register (customL1Network_then, customL2Network_then)
       (register (customL1Network_then, customL2Network_then) emptyRegistry))
    !! 42161 = None.
Proof.
  destruct (register_twice (customL1Network_then, customL2Network_then) emptyRegistry)
    as (_ & _ & _ & _ & _ & _ & H1 & H2).
  split.
  - rewrite (H1 1); [reflexivity | discriminate].
  - rewrite (H2 42161); [reflexivity | discriminate].
Defined.

(** ** The resolution function *)

(** *** Framing of the logs *)

Lemma framed_resolve {A} (a : A) : Framed (resolve a).
Proof. by intros reg rs ps. Qed.

Lemma framed_reject {A} : Framed (@reject A).
Proof. by intros reg rs ps. Qed.

Lemma framed_ofOption {A} (o : option A) : Framed (ofOption o).
Proof. destruct o; [apply framed_resolve | apply framed_reject]. Qed.

Lemma framed_setResult r : Framed (setResult r).
Proof. by intros reg rs ps. Qed.

Lemma framed_addCustomNetwork pair : Framed (addCustomNetwork pair).
Proof. by intros reg rs ps. Qed.

Lemma framed_getL1Network rpc p id : Framed (getL1Network rpc p id).
Proof.
  intros reg rs ps. unfold getL1Network. destruct (getNetwork rpc p); [| done].
  apply framed_ofOption.
Qed.

Lemma framed_getL2Network rpc p : Framed (getL2Network rpc p).
Proof.
  intros reg rs ps. unfold getL2Network. destruct (getNetwork rpc p); [| done].
  apply framed_ofOption.
Qed.

Lemma framed_andThen {A B} (m : Promise A) (f : A → Promise B) :
  Framed m → (∀ a, Framed (f a)) → Framed (andThen m f).
Proof.
  intros Hm Hf reg rs ps. unfold andThen. rewrite Hm.
  destruct (m {| registry := reg; registered := []; published := [] |})
    as [[a|] [reg' rs' ps']]; simpl; [| done].
  rewrite (Hf a reg' rs' ps'), (Hf a reg' (rs' ++ rs)%list (ps' ++ ps)%list).
  simpl. by rewrite !(assoc_L (++)).
Qed.

Lemma framed_catch {A} (m h : Promise A) :
  Framed m → Framed h → Framed (catch m h).
Proof.
  intros Hm Hh reg rs ps. unfold catch. rewrite Hm.
  destruct (m {| registry := reg; registered := []; published := [] |})
    as [[a|] [reg' rs' ps']]; simpl; [done |].
  rewrite (Hh reg' rs' ps'), (Hh reg' (rs' ++ rs)%list (ps' ++ ps)%list).
  simpl. by rewrite !(assoc_L (++)).
Qed.

#[local] Hint Resolve framed_resolve framed_reject framed_ofOption
  framed_setResult framed_addCustomNetwork framed_getL1Network
  framed_getL2Network framed_andThen framed_catch : framed.

Lemma framed_update util rpc fmt sel p a : Framed (update util rpc fmt sel p a).
Proof.
  unfold update. apply framed_andThen; [auto with framed |].
  intros c. destruct (requestedL2ChainId util sel c); [| auto with framed].
  unfold baseInterpretation, rollupInterpretation, connectedToL1, connectedToL2.
  apply framed_catch.
  - auto 10 with framed.
  - destruct (negb _); auto 10 with framed.
Qed.

(** The logs that a run of [update] finds do not influence it: it adds its
    own entries in front of them. *)
Lemma update_frame util rpc fmt sel p a (w : World) :
  let w0 := {| registry := registry w; registered := []; published := [] |} in
  (update util rpc fmt sel p a w).1 = (update util rpc fmt sel p a w0).1
  ∧ registry (update util rpc fmt sel p a w).2 = registry (update util rpc fmt sel p a w0).2
  ∧ registered (update util rpc fmt sel p a w).2
    = (registered (update util rpc fmt sel p a w0).2 ++ registered w)%list
  ∧ published (update util rpc fmt sel p a w).2
    = (published (update util rpc fmt sel p a w0).2 ++ published w)%list.
Proof.
  destruct w as [reg rs ps]. simpl.
  by rewrite (framed_update util rpc fmt sel p a reg rs ps).
Qed.

Lemma custom_literals_agree :
  (customL1Network_catch, customL2Network_catch)
  = (customL1Network_then, customL2Network_then).
Proof. reflexivity. Qed.

(** A run of [update] makes at most one call of [setResult], and that call
    publishes [not_supported] or a connected pairing. *)
Lemma update_publication util rpc fmt sel p a reg :
  published
    (update util rpc fmt sel p a
       {| registry := reg; registered := []; published := [] |}).2 = []
  ∨ ∃ r, published
           (update util rpc fmt sel p a
              {| registry := reg; registered := []; published := [] |}).2 = [r]
         ∧ (r = LoadingOrError NOT_SUPPORTED ∨ ∃ pairing, r = Connected pairing).
Proof.
  unfold_update. simpl.
  repeat (case_match; simplify_eq/=); eauto 10.
Qed.

(** Every call of [addCustomNetwork] that a run of [update] makes hands
    over the fixed pair. *)
Lemma registrations_are_fixed util rpc fmt sel p a reg :
  Forall (λ pair, pair = (customL1Network_then, customL2Network_then))
    (registrations util rpc fmt sel p a reg).
Proof.
  unfold_update. simpl.
  repeat (case_match; simplify_eq/=); repeat constructor.
Qed.

(** C9, the defect: the [.catch] branch of [update] does not register the
    fixed pair.  When the base-chain lookup fails and the wallet is on the
    requested rollup, the branch passes its test of the chain identifiers
    and then throws at [await addCustomNetwork(..)], which stands in a
    callback that is not [async]: nothing is registered, nothing is
    published, and the chain rejects. *)
Theorem rollup_branch_registers_nothing util rpc fmt sel p a (w : World) c :
  w_chainId p = Some c →
  requestedL2ChainId util sel c = Some c →
  lookupBase (registry w) c c = None →
  update util rpc fmt sel p a w = (None, w).
Proof.
  intros Hc Hreq Hbase. unfold_update. rewrite Hc. promise_simpl.
  rewrite Hreq. promise_simpl. rewrite Hbase. promise_simpl.
  rewrite Z.eqb_refl. reflexivity.
Qed.

(** The failing input: a wallet on the rollup chain 412346 of the local
    network, which is the requested rollup. *)
Lemma rollup_branch_registers_nothing_witness :
  registrations localNetworks localEndpoints localAddresses (Some 412346)
    (walletOn 0 412346) sampleAccount seededRegistry = []
  ∧ outcome localNetworks localEndpoints localAddresses (Some 412346)
      (walletOn 0 412346) sampleAccount seededRegistry = None.
Proof.
  unfold registrations, outcome.
  rewrite (rollup_branch_registers_nothing localNetworks localEndpoints
             localAddresses (Some 412346) (walletOn 0 412346) sampleAccount
             _ 412346);
    [split; reflexivity | reflexivity | reflexivity | reflexivity].
Defined.

(** C3: when the base-chain interpretation of the wallet connection fails,
    a wallet whose chain differs from the requested rollup identifier gets
    [not_supported]; and a pairing with the wallet on the rollup side is
    only published when the wallet's chain is the requested rollup
    identifier. *)
Theorem rollup_interpretation_is_strict util rpc fmt sel p a reg c requested :
  w_chainId p = Some c →
  requestedL2ChainId util sel c = Some requested →
  ((baseInterpretation util rpc fmt p a requested
      {| registry := reg; registered := []; published := [] |}).1 = None →
   c ≠ requested →
   outcome util rpc fmt sel p a reg = Some (LoadingOrError NOT_SUPPORTED))
  ∧ (∀ pairing,
       outcome util rpc fmt sel p a reg = Some (Connected pairing) →
       isConnectedToArbitrum pairing = true →
       c = requested).
Proof.
  intros Hc Hreq. split.
  - intros Hbase Hne. unfold outcome, update, andThen, ofOption, catch.
    simpl. rewrite Hc. simpl. rewrite Hreq.
    destruct (baseInterpretation _ _ _ _ _ _) as [[[]|] w'] eqn:Hb;
      [discriminate |].
    unfold rollupInterpretation.
    assert ((c =? requested)%Z = false) as -> by by apply Z.eqb_neq.
    reflexivity.
  - intros pairing. unfold_update. simpl. rewrite Hc. simpl. rewrite Hreq.
    destruct (c =? requested)%Z eqn:Heq.
    + intros _ _. by apply Z.eqb_eq.
    + simpl. repeat (case_match; simplify_eq/=); try done.
      intros [= <-]. done.
Qed.

(** The scenario of the specification: the wallet is on rollup 412346 and
    the caller requests rollup 777. *)
Lemma rollup_interpretation_is_strict_witness :
  outcome localNetworks localEndpoints localAddresses (Some 777) (walletOn 0 412346) sampleAccount
    seededRegistry = Some (LoadingOrError NOT_SUPPORTED).
Proof.
  apply (rollup_interpretation_is_strict localNetworks localEndpoints localAddresses
           (Some 777) (walletOn 0 412346) sampleAccount seededRegistry 412346 777);
    [reflexivity | reflexivity | reflexivity | discriminate].
Defined.

(** C6, as stated, fails: with tables that list a proxy for each local
    chain, the wallet-on-base pairing holds providers built from the
    entries of [rpcURLs], which are not the [rpcURL] endpoints of the two
    descriptors. *)
Lemma providers_not_from_descriptor_endpoints :
  ∃ pairing,
    outcome proxiedNetworks localEndpoints localAddresses (Some 412346) (walletOn 0 1337)
      sampleAccount seededRegistry = Some (Connected pairing)
    ∧ isConnectedToArbitrum pairing = false
    ∧ provider (l2 pairing) = JsonRpcProvider (Some "http://rpc.example:9547")
    ∧ l2_rpcURL (network (l2 pairing)) = "http://localhost:8547"
    ∧ provider (l2 pairing)
      ≠ JsonRpcProvider (Some (l2_rpcURL (network (l2 pairing))))
    ∧ provider (l1 pairing) = JsonRpcProvider (Some "http://rpc.example:9545")
    ∧ l1_rpcURL (network (l1 pairing)) = "http://localhost:8545"
    ∧ provider (l1 pairing)
      ≠ JsonRpcProvider (Some (l1_rpcURL (network (l1 pairing)))).
Proof.
  eexists. split; [vm_compute; reflexivity |]. simpl.
  repeat split; discriminate.
Qed.

(** C6, amended: for every successful resolution with orientation
    wallet-on-base, the pairing has a rollup provider that is a direct-RPC
    provider built from the entry of the [rpcURLs] table for the requested
    rollup identifier; a rollup signer derived from that provider, keyed by
    the wallet address; a base signer that is the wallet connection's own
    signer at index 0; and a base provider that is a direct-RPC provider
    built from the entry of [rpcURLs] for the base descriptor's chain
    identifier, separate from the wallet's own provider. *)
Theorem wallet_on_base_pairing util rpc fmt sel p a reg pairing :
  outcome util rpc fmt sel p a reg = Some (Connected pairing) →
  isConnectedToArbitrum pairing = false →
  ∃ c requested,
    w_chainId p = Some c
    ∧ requestedL2ChainId util sel c = Some requested
    ∧ provider (l2 pairing) = JsonRpcProvider (rpcURLs util !! requested)
    ∧ getSigner fmt (provider (l2 pairing)) (ByAddress a)
      = Some (signer (l2 pairing))
    ∧ getSigner fmt (Web3 p) (ByIndex 0) = Some (signer (l1 pairing))
    ∧ provider (l1 pairing)
      = JsonRpcProvider (rpcURLs util !! l1_chainID (network (l1 pairing)))
    ∧ provider (l1 pairing) ≠ Web3 p.
Proof.
  unfold_update. simpl. intros Hout Hbase.
  destruct (w_chainId p) as [c|] eqn:Hc; [| done]. simpl in Hout.
  destruct (requestedL2ChainId util sel c) as [requested|] eqn:Hreq; [| done].
  exists c, requested. split; [done |]. split; [done |].
  repeat (case_match; simplify_eq/=); done.
Qed.

(** The pairing of a wallet on the base chain of the local network. *)
Lemma wallet_on_base_pairing_witness :
  ∃ pairing,
    outcome localNetworks localEndpoints localAddresses (Some 412346) (walletOn 0 1337)
      sampleAccount seededRegistry = Some (Connected pairing)
    ∧ provider (l2 pairing) = JsonRpcProvider (Some "http://localhost:8547")
    ∧ getSigner localAddresses (JsonRpcProvider (Some "http://localhost:8547"))
        (ByAddress sampleAccount)
      = Some (signer (l2 pairing))
    ∧ getSigner localAddresses (Web3 (walletOn 0 1337)) (ByIndex 0)
      = Some (signer (l1 pairing))
    ∧ provider (l1 pairing) = JsonRpcProvider (Some "http://localhost:8545").
Proof.
  eexists. split; [vm_compute; reflexivity |].
  edestruct (wallet_on_base_pairing localNetworks localEndpoints localAddresses
               (Some 412346) (walletOn 0 1337) sampleAccount seededRegistry)
    as (c & requested & Hc & Hreq & Hp2 & Hs2 & Hs1 & Hp1 & _);
    [vm_compute; reflexivity | reflexivity |].
  injection Hc as <-. injection Hreq as <-.
  rewrite <- Hs2, <- Hs1, Hp2, Hp1. repeat split.
Defined.

(** ** Resolution of a supported pair *)

Section SupportedPair.
Context {util : Networks} {rpc : Endpoints} {reg : Registry}
        {b : L1Network} {r : L2Network}.
Hypothesis pair_supported : Supported util rpc reg b r.

Lemma lookupBase_of_pair :
  lookupBase reg (l1_chainID b) (l2_chainID r) = Some b.
Proof.
  unfold lookupBase. rewrite (base_registered _ _ _ _ _ pair_supported).
  rewrite bool_decide_eq_true_2; [done |].
  apply (base_partners_rollup _ _ _ _ _ pair_supported).
Qed.

(** The rollup descriptor that [update] finds once it has registered the
    fixed pair: the literal of the source when the rollup is chain 412346,
    the registered descriptor otherwise. *)
Lemma rollup_after_registration :
  lookupRollup (register (customL1Network_then, customL2Network_then) reg)
    (l2_chainID r)
  = Some (if decide (l2_chainID r = 412346) then customL2Network_then else r).
Proof.
  unfold lookupRollup, register. simpl.
  destruct (decide (l2_chainID r = 412346)) as [Heq|Hne].
  - by rewrite Heq, lookup_insert_eq.
  - rewrite lookup_insert_ne by done.
    apply (rollup_registered _ _ _ _ _ pair_supported).
Qed.

Lemma resolves_wallet_on_base fmt sel p a formatted :
  w_chainId p = Some (l1_chainID b) →
  requestedL2ChainId util sel (l1_chainID b) = Some (l2_chainID r) →
  fmt a = Some formatted →
  outcome util rpc fmt sel p a reg
  = Some (Connected
      {| l1 := {| network := b;
                  signer := {| s_provider := Web3 p; s_key := ByIndex 0 |};
                  provider := JsonRpcProvider (rpcURLs util !! l1_chainID b) |};
         l2 := {| network := if decide (l2_chainID r = 412346)
                             then customL2Network_then else r;
                  signer :=
                    {| s_provider := JsonRpcProvider (rpcURLs util !! l2_chainID r);
                       s_key := ByAddress formatted |};
                  provider := JsonRpcProvider (rpcURLs util !! l2_chainID r) |};
         isConnectedToArbitrum := false |}).
Proof.
  intros Hc Hreq Hfmt. unfold_update. promise_simpl. rewrite Hc. promise_simpl.
  rewrite Hreq. promise_simpl.
  rewrite lookupBase_of_pair. promise_simpl.
  rewrite (rollup_endpoint _ _ _ _ _ pair_supported).
  rewrite rollup_after_registration. promise_simpl.
  rewrite Hfmt. reflexivity.
Qed.
End SupportedPair.

(** A wallet on a chain that is neither the requested rollup nor a
    registered base chain partnering with it gets [not_supported]. *)
Lemma rejects_other_chain util rpc fmt reg sel p a c :
  w_chainId p = Some c →
  requestedL2ChainId util sel c = None
  ∨ (∃ requested,
       requestedL2ChainId util sel c = Some requested
       ∧ c ≠ requested
       ∧ ∀ d, l1Networks reg !! c = Some d → requested ∉ l1_partnerChainIDs d) →
  outcome util rpc fmt sel p a reg = Some (LoadingOrError NOT_SUPPORTED).
Proof.
  intros Hc Hreq. unfold_update. promise_simpl. rewrite Hc. promise_simpl.
  destruct Hreq as [-> | (requested & -> & Hne & Hnot)]; [done |].
  promise_simpl.
  assert (lookupBase reg c requested = None) as ->.
  { unfold lookupBase. destruct (l1Networks reg !! c) as [d|] eqn:Hd; [| done].
    rewrite bool_decide_eq_false_2; [done |]. by apply Hnot. }
  promise_simpl.
  assert ((c =? requested)%Z = false) as -> by by apply Z.eqb_neq.
  reflexivity.
Qed.

(** On a registry that does not hold the fixed pair yet, a wallet on the
    base chain 1337 is not resolved: [update] looks the base chain up
    before it registers the pair. *)
Example fresh_registry_wallet_on_base :
  outcome localNetworks localEndpoints localAddresses (Some 412346)
    (walletOn 0 1337) sampleAccount emptyRegistry
  = Some (LoadingOrError NOT_SUPPORTED).
Proof. reflexivity. Qed.

Lemma local_pair_supported :
  Supported localNetworks localEndpoints seededRegistry
    customL1Network_then customL2Network_then.
Proof.
  split; try reflexivity. apply list_elem_of_singleton. reflexivity.
Defined.

Lemma local_pair_supported_beside_second_base :
  Supported localNetworks localEndpoints twoBaseRegistry
    customL1Network_then customL2Network_then.
Proof.
  split; try reflexivity. apply list_elem_of_singleton. reflexivity.
Defined.




(** ** The provider component *)

Lemma updateDepsChanged_same (d : Deps) :
  updateDepsChanged (Some d) (d_selectedL2ChainId d) (d_wallet d) = false.
Proof. unfold updateDepsChanged. by rewrite !bool_decide_eq_true_2. Qed.

Lemma resetEffect_Some account r r' :
  resetEffect account r = Some r' ↔
  r' = LoadingOrError NOT_CONNECTED ∧ status r = CONNECTED ∧ account = None.
Proof.
  unfold resetEffect.
  case_bool_decide as Hs; case_bool_decide as Ha; simpl; split.
  - by intros [= <-].
  - by intros (-> & _ & _).
  - done.
  - by intros (_ & _ & ?).
  - done.
  - by intros (_ & ? & _).
  - done.
  - by intros (_ & ? & _).
Qed.

Lemma resetEffect_not_connected account r :
  status r ≠ CONNECTED → resetEffect account r = None.
Proof.
  intros H. destruct (resetEffect account r) as [r'|] eqn:E; [| done].
  apply resetEffect_Some in E as (_ & ? & _). done.
Qed.

Lemma resetEffect_account_present account r :
  account ≠ None → resetEffect account r = None.
Proof.
  intros H. destruct (resetEffect account r) as [r'|] eqn:E; [| done].
  apply resetEffect_Some in E as (_ & _ & ?). done.
Qed.

Lemma result_unchanged (c c' : Component) :
  initial c' = initial c → world c' = world c → result c' = result c.
Proof. intros Hi Hw. unfold result. by rewrite Hi, Hw. Qed.

Lemma result_after_setResult (c c' : Component) r :
  world c' = (setResult r (world c)).2 → result c' = r.
Proof. intros Hw. unfold result. by rewrite Hw. Qed.

Lemma rerender_same (c : Component) (d : Deps) :
  rendered c = Some d → d_result d = result c → rerender c = c.
Proof.
  intros Hd Hr. unfold rerender. rewrite Hd. by rewrite bool_decide_eq_true_2.
Qed.

(** A render caused by a new [result] alone: only the reset effect can run,
    and no resolution is started. *)
Lemma rerender_changed (c : Component) (d : Deps) :
  rendered c = Some d → d_result d ≠ result c →
  initial (rerender c) = initial c
  ∧ pending (rerender c) = pending c
  ∧ started (rerender c) = started c
  ∧ rendered (rerender c)
    = Some {| d_selectedL2ChainId := d_selectedL2ChainId d;
              d_wallet := d_wallet d;
              d_result := result c |}
  ∧ world (rerender c)
    = match resetEffect (wallet_account (d_wallet d)) (result c) with
      | Some r' => (setResult r' (world c)).2
      | None => world c
      end.
Proof.
  intros Hd Hr. unfold rerender. rewrite Hd.
  rewrite bool_decide_eq_false_2 by done.
  unfold commit. rewrite Hd, updateDepsChanged_same.
  assert (resetDepsChanged (Some d) (d_wallet d) (result c) = true) as ->.
  { unfold resetDepsChanged.
    rewrite (bool_decide_eq_false_2 (d_result d = result c)) by done.
    by rewrite orb_true_r. }
  by destruct (resetEffect _ _).
Qed.

(** What the renders after a call of [setResult] do: nothing but the
    bookkeeping of the dependencies, or, when the account is absent and
    the new result is connected, one more call of [setResult] that
    publishes [not_connected].  A further render would change nothing. *)
Lemma renders_cases (c : Component) (d : Deps) :
  rendered c = Some d →
  initial (renders c) = initial c
  ∧ pending (renders c) = pending c
  ∧ started (renders c) = started c
  ∧ (∃ d', rendered (renders c) = Some d'
           ∧ d_wallet d' = d_wallet d
           ∧ d_selectedL2ChainId d' = d_selectedL2ChainId d)
  ∧ (world (renders c) = world c
     ∨ (wallet_account (d_wallet d) = None
        ∧ status (result c) = CONNECTED
        ∧ world (renders c)
          = (setResult (LoadingOrError NOT_CONNECTED) (world c)).2))
  ∧ rerender (renders c) = renders c.
Proof.
  intros Hd. unfold renders.
  destruct (decide (d_result d = result c)) as [Heq|Hne].
  { rewrite !(rerender_same c d) by done. eauto 10. }
  destruct (rerender_changed c d Hd Hne) as (Hi & Hp & Hs & Hr & Hw).
  set (c1 := rerender c) in *.
  destruct (resetEffect (wallet_account (d_wallet d)) (result c)) as [r'|] eqn:E.
  - apply resetEffect_Some in E as (-> & Hconn & Hacc).
    assert (result c1 = LoadingOrError NOT_CONNECTED) as Hres
      by by eapply result_after_setResult.
    destruct (rerender_changed c1 _ Hr) as (Hi' & Hp' & Hs' & Hr' & Hw').
    { simpl. rewrite Hres. intros Heq. by rewrite Heq in Hconn. }
    simpl in Hw', Hr'. rewrite Hres in Hw', Hr'.
    rewrite resetEffect_not_connected in Hw' by done.
    rewrite Hi', Hp', Hs', Hr', Hw', Hi, Hp, Hs, Hw.
    repeat split; eauto 10.
    apply (rerender_same _ _ Hr'). simpl.
    by rewrite (result_unchanged c1 (rerender c1) Hi' Hw').
  - assert (result c1 = result c) as Hres by by apply result_unchanged.
    rewrite (rerender_same c1 _ Hr) by (simpl; by rewrite Hres).
    rewrite Hi, Hp, Hs, Hr, Hw. repeat split; eauto 10.
    apply (rerender_same c1 _ Hr). simpl. by rewrite Hres.
Qed.

Lemma renders_unmounted (c : Component) :
  rendered c = None → renders c = c.
Proof. intros H. unfold renders, rerender. by rewrite !H. Qed.

(** After the renders that follow a call of [setResult], a further render
    changes nothing. *)
Lemma renders_stable (c : Component) : rerender (renders c) = renders c.
Proof.
  destruct (rendered c) as [d|] eqn:Hd.
  - by destruct (renders_cases c d Hd) as (_ & _ & _ & _ & _ & ?).
  - rewrite (renders_unmounted c Hd). unfold rerender. by rewrite Hd.
Qed.

(** The renders publish nothing when the reset effect has nothing to do. *)
Lemma renders_quiet (c : Component) (d : Deps) :
  rendered c = Some d →
  resetEffect (wallet_account (d_wallet d)) (result c) = None →
  world (renders c) = world c
  ∧ pending (renders c) = pending c
  ∧ started (renders c) = started c
  ∧ initial (renders c) = initial c
  ∧ ∃ d', rendered (renders c) = Some d'
          ∧ d_wallet d' = d_wallet d
          ∧ d_selectedL2ChainId d' = d_selectedL2ChainId d.
Proof.
  intros Hd Hreset.
  destruct (renders_cases c d Hd)
    as (Hi & Hp & Hs & Hr & [Hw | (Ha & Hc & _)] & _).
  - done.
  - rewrite (proj2 (resetEffect_Some _ _ (LoadingOrError NOT_CONNECTED))) in Hreset;
      done.
Qed.

(** What one commit does to the shared state: nothing, or the call of
    [setResult] of the reset effect. *)
Lemma commit_cases sel w (c : Component) :
  initial (commit sel w c) = initial c
  ∧ rendered (commit sel w c)
    = Some {| d_selectedL2ChainId := sel; d_wallet := w; d_result := result c |}
  ∧ (world (commit sel w c) = world c
     ∨ (wallet_account w = None
        ∧ status (result c) = CONNECTED
        ∧ world (commit sel w c)
          = (setResult (LoadingOrError NOT_CONNECTED) (world c)).2)).
Proof.
  unfold commit.
  destruct (resetEffect (wallet_account w) (result c)) as [r'|] eqn:E.
  - apply resetEffect_Some in E as (-> & Hconn & Hacc).
    destruct (resetDepsChanged _ _ _), (updateDepsChanged _ _ _),
      (updateEffect w) as [[? ?]|]; simpl; eauto 10.
  - destruct (resetDepsChanged _ _ _), (updateDepsChanged _ _ _),
      (updateEffect w) as [[? ?]|]; simpl; eauto 10.
Qed.

(** C7: when the wallet account becomes absent while the published status
    is [connected], the render that sees the change publishes
    [not_connected] and starts no chain resolution: no call of [update] is
    put in flight, nothing is registered. *)
Theorem account_disappears_while_connected util rpc fmt (c : Component) sel w :
  status (result c) = CONNECTED →
  (∀ d, rendered c = Some d → wallet_account (d_wallet d) ≠ None) →
  wallet_account w = None →
  result (step util rpc fmt (WalletState sel w) c) = LoadingOrError NOT_CONNECTED
  ∧ pending (step util rpc fmt (WalletState sel w) c) = pending c
  ∧ started (step util rpc fmt (WalletState sel w) c) = started c
  ∧ registry (world (step util rpc fmt (WalletState sel w) c)) = registry (world c)
  ∧ registered (world (step util rpc fmt (WalletState sel w) c))
    = registered (world c).
Proof.
  intros Hconn Hprev Hacc.
  change (step util rpc fmt (WalletState sel w) c) with (renders (commit sel w c)).
  assert (resetDepsChanged (rendered c) w (result c) = true) as Hrun.
  { unfold resetDepsChanged. destruct (rendered c) as [d|] eqn:Hd; [| done].
    rewrite (bool_decide_eq_false_2 (wallet_account (d_wallet d) = wallet_account w)).
    - done.
    - rewrite Hacc. by apply Hprev. }
  assert (updateEffect w = None) as Hupd.
  { unfold updateEffect. rewrite Hacc. by destruct (wallet_provider w). }
  set (c1 := commit sel w c).
  assert (world c1 = (setResult (LoadingOrError NOT_CONNECTED) (world c)).2
          ∧ pending c1 = pending c ∧ started c1 = started c
          ∧ initial c1 = initial c
          ∧ rendered c1 = Some {| d_selectedL2ChainId := sel; d_wallet := w;
                                  d_result := result c |}) as (Hw & Hp & Hs & Hi & Hr).
  { unfold c1, commit. rewrite Hrun, Hupd. unfold resetEffect.
    rewrite Hacc, !bool_decide_eq_true_2 by done. simpl.
    by destruct (updateDepsChanged _ _ _). }
  assert (result c1 = LoadingOrError NOT_CONNECTED) as Hres
    by by eapply result_after_setResult.
  destruct (renders_quiet c1 _ Hr) as (Hw' & Hp' & Hs' & Hi' & _).
  { rewrite Hres. by apply resetEffect_not_connected. }
  rewrite (result_unchanged c1 (renders c1) Hi' Hw').
  rewrite Hw', Hp', Hs', Hw, Hp, Hs. done.
Qed.

(** On the local network the wallet is locked while the component is
    connected. *)
Lemma account_disappears_while_connected_witness :
  result (step localNetworks localEndpoints localAddresses (WalletState (Some 412346) lockedWallet)
            connectedComponent) = LoadingOrError NOT_CONNECTED
  ∧ pending (step localNetworks localEndpoints localAddresses
               (WalletState (Some 412346) lockedWallet) connectedComponent)
    = pending connectedComponent.
Proof.
  destruct (account_disappears_while_connected localNetworks localEndpoints localAddresses
              connectedComponent (Some 412346) lockedWallet)
    as (Hresult & Hpending & _).
  - vm_compute. reflexivity.
  - intros d Hd. vm_compute in Hd. injection Hd as <-. discriminate.
  - reflexivity.
  - split; assumption.
Defined.

(** A rejected [connect()] publishes [not_connected]. *)
Example connect_rejected :
  result (step localNetworks localEndpoints localAddresses (ConnectSettled None)
            (mount true seededRegistry)) = LoadingOrError NOT_CONNECTED.
Proof. reflexivity. Qed.

(** An attempt that settles after the account has disappeared publishes
    its pairing, and the render that follows resets it at once. *)
Example late_settlement_without_account :
  status (result
    (run localNetworks localEndpoints localAddresses
       [WalletState (Some 412346) (walletState 0 1337 sampleAccount);
        WalletState (Some 412346) lockedWallet;
        Settled 0%nat]
       (mount true seededRegistry))) = NOT_CONNECTED.
Proof. vm_compute. reflexivity. Qed.

(** ** Where [not_connected] comes from *)

(** A run of [update] makes at most one call of [setResult], and never
    publishes [loading] or [not_connected]. *)
Lemma update_publishes_at_most_once util rpc fmt sel p a (w : World) :
  published (update util rpc fmt sel p a w).2 = published w
  ∨ ∃ r, published (update util rpc fmt sel p a w).2 = r :: published w
         ∧ (status r = NOT_SUPPORTED ∨ status r = CONNECTED).
Proof.
  destruct (update_frame util rpc fmt sel p a w) as (_ & _ & _ & ->).
  destruct (update_publication util rpc fmt sel p a (registry w))
    as [-> | (r & -> & [-> | [pairing ->]])];
    [by left | right; eexists; split; eauto ..].
Qed.

Lemma not_connected_origin util rpc fmt (e : Event) (c : Component) :
  status (result c) ≠ NOT_CONNECTED →
  status (result (step util rpc fmt e c)) = NOT_CONNECTED →
  e = ConnectSettled None
  ∨ ∃ d, rendered (step util rpc fmt e c) = Some d
         ∧ wallet_account (d_wallet d) = None.
Proof.
  intros Hbefore Hafter. destruct e as [sel w | n | [provider|]].
  - right.
    change (step util rpc fmt (WalletState sel w) c)
      with (renders (commit sel w c)) in *.
    destruct (commit_cases sel w c) as (Hi & Hr & Hw).
    destruct (renders_cases _ _ Hr) as (Hi' & _ & _ & (d' & Hd' & Hwal & _) & Hw' & _).
    simpl in Hwal.
    destruct Hw as [Hw | (Hacc & _ & _)];
      [| exists d'; split; [done | by rewrite Hwal]].
    destruct Hw' as [Hw' | (Hacc & _ & _)];
      [| exists d'; split; [done | by rewrite Hwal]].
    destruct Hbefore.
    rewrite <- (result_unchanged c (renders (commit sel w c))); [done | |].
    + by rewrite Hi', Hi.
    + by rewrite Hw', Hw.
  - simpl in *. destruct (pending c !! n) as [a|] eqn:Hn; [| done].
    right. set (c1 := settle util rpc fmt n a c) in *.
    assert (status (result c1) ≠ NOT_CONNECTED) as Hsettled.
    { unfold result, c1. simpl.
      destruct (update_publishes_at_most_once util rpc fmt (a_selectedL2ChainId a)
                  (a_web3Provider a) (a_address a) (world c))
        as [-> | (r & -> & [Hr | Hr])]; [done | |]; simpl; by rewrite Hr. }
    destruct (rendered c1) as [d|] eqn:Hd.
    + destruct (renders_cases c1 d Hd)
        as (Hi' & _ & _ & (d' & Hd' & Hwal & _) & [Hw' | (Hacc & _ & _)] & _).
      * destruct Hsettled.
        by rewrite <- (result_unchanged c1 (renders c1) Hi' Hw').
      * exists d'. split; [done | by rewrite Hwal].
    + rewrite (renders_unmounted c1 Hd) in Hafter. done.
  - done.
  - by left.
Qed.

(** C5, amended: the initial resolution status, before any wallet state is
    known, is [loading] when [window.web3] is defined and [not_connected]
    when it is undefined; after that, [not_connected] arises only once
    wallet state is known: in a render that finds no account, or when the
    connection attempt is rejected. *)
Theorem initial_status (web3Defined : bool) (reg : Registry) :
  status (result (mount web3Defined reg))
  = (if web3Defined then LOADING else NOT_CONNECTED)
  ∧ ∀ util rpc fmt (e : Event) (c : Component),
      status (result c) ≠ NOT_CONNECTED →
      status (result (step util rpc fmt e c)) = NOT_CONNECTED →
      e = ConnectSettled None
      ∨ ∃ d, rendered (step util rpc fmt e c) = Some d
             ∧ wallet_account (d_wallet d) = None.
Proof.
  split; [apply initial_status_cases | apply not_connected_origin].
Qed.

(** The connected component of the local network turns to [not_connected]
    in the render that finds the wallet locked. *)
Lemma initial_status_witness :
  status (result (mount true seededRegistry)) = LOADING
  ∧ ∃ d, rendered (step localNetworks localEndpoints localAddresses
                     (WalletState (Some 412346) lockedWallet) connectedComponent)
         = Some d
         ∧ wallet_account (d_wallet d) = None.
Proof.
  destruct (initial_status true seededRegistry) as (Hinitial & Hlater).
  split; [exact Hinitial |].
  destruct (Hlater localNetworks localEndpoints localAddresses
              (WalletState (Some 412346) lockedWallet) connectedComponent)
    as [Hconnect | Hrender].
  - vm_compute. discriminate.
  - vm_compute. reflexivity.
  - discriminate.
  - exact Hrender.
Defined.

(** ** Order of publication *)

(** The settlement of an in-flight attempt publishes what its run of
    [update] publishes, whatever else was started or has settled. *)
Lemma settled_publishes util rpc fmt (c : Component) n a d account r :
  pending c !! n = Some a →
  rendered c = Some d →
  wallet_account (d_wallet d) = Some account →
  outcome util rpc fmt (a_selectedL2ChainId a) (a_web3Provider a) (a_address a)
    (registry (world c)) = Some r →
  result (step util rpc fmt (Settled n) c) = r
  ∧ pending (step util rpc fmt (Settled n) c) = delete n (pending c)
  ∧ ∃ d', rendered (step util rpc fmt (Settled n) c) = Some d'
          ∧ d_wallet d' = d_wallet d.
Proof.
  intros Hn Hd Hacc Hout. simpl. rewrite Hn.
  destruct (renders_quiet (settle util rpc fmt n a c) d Hd)
    as (Hw & Hp & _ & Hi & d' & Hd' & Hwallet & _).
  { apply resetEffect_account_present. by rewrite Hacc. }
  split; [| split; [by rewrite Hp | by eauto]].
  unfold result. rewrite Hw, Hi. simpl.
  destruct (update_frame util rpc fmt (a_selectedL2ChainId a) (a_web3Provider a)
              (a_address a) (world c)) as (_ & _ & _ & ->).
  unfold outcome in Hout.
  destruct (published _) as [|r' rs]; [done |].
  simpl in Hout. by injection Hout as ->.
Qed.

(** C1, as stated, fails: attempt 0 (wallet on the unknown chain 999999)
    is started, attempt 1 (wallet on the base chain 1337) is started before
    attempt 0 settles, attempt 1 settles and publishes its connected
    pairing, then attempt 0 settles: the published result is the
    [not_supported] of attempt 0, not the result of attempt 1. *)
Lemma stale_resolution_overwrites :
  a_web3Provider <$> pending twoInFlight !! 0%nat = Some (walletOn 0 999999)
  ∧ a_web3Provider <$> pending twoInFlight !! 1%nat = Some (walletOn 1 1337)
  ∧ Some (result (run localNetworks localEndpoints localAddresses [Settled 1%nat] twoInFlight))
    = outcome localNetworks localEndpoints localAddresses (Some 412346) (walletOn 1 1337)
        sampleAccount (registry (world twoInFlight))
  ∧ status (result (run localNetworks localEndpoints localAddresses [Settled 1%nat] twoInFlight))
    = CONNECTED
  ∧ result (run localNetworks localEndpoints localAddresses [Settled 1%nat; Settled 0%nat]
              twoInFlight)
    = LoadingOrError NOT_SUPPORTED
  ∧ result (run localNetworks localEndpoints localAddresses [Settled 1%nat; Settled 0%nat]
              twoInFlight)
    ≠ result (run localNetworks localEndpoints localAddresses [Settled 1%nat] twoInFlight).
Proof.
  split; [vm_compute; reflexivity |].
  split; [vm_compute; reflexivity |].
  split; [vm_compute; reflexivity |].
  split; [vm_compute; reflexivity |].
  split; [vm_compute; reflexivity |].
  vm_compute. discriminate.
Qed.

(** C1, amended: when attempt A is started, attempt B is started before A
    settles, and A settles after B, the result of B is published when B
    settles and the result of A replaces it when A settles: the published
    result is that of the attempt that settles last, here A's.  No sequence
    number or latest-request marker is consulted. *)
Theorem last_settlement_is_published util rpc fmt (c : Component)
    (i j : nat) (A B : Attempt) d account rA rB :
  (i < j)%nat →
  pending c !! i = Some A →
  pending c !! j = Some B →
  rendered c = Some d →
  wallet_account (d_wallet d) = Some account →
  outcome util rpc fmt (a_selectedL2ChainId B) (a_web3Provider B) (a_address B)
    (registry (world c)) = Some rB →
  outcome util rpc fmt (a_selectedL2ChainId A) (a_web3Provider A) (a_address A)
    (registry (world (step util rpc fmt (Settled j) c))) = Some rA →
  result (run util rpc fmt [Settled j] c) = rB
  ∧ result (run util rpc fmt [Settled j; Settled i] c) = rA.
Proof.
  intros Hij HA HB Hd Hacc HrB HrA.
  change (run util rpc fmt [Settled j] c) with (step util rpc fmt (Settled j) c).
  change (run util rpc fmt [Settled j; Settled i] c)
    with (step util rpc fmt (Settled i) (step util rpc fmt (Settled j) c)).
  destruct (settled_publishes util rpc fmt c j B d account rB HB Hd Hacc HrB)
    as (Hres & Hpend & d' & Hd' & Hwallet).
  split; [done |].
  eapply settled_publishes; [| exact Hd' | by rewrite Hwallet | exact HrA].
  rewrite Hpend, lookup_delete_ne by lia. done.
Qed.

(** The two attempts of [twoInFlight], settled in the reverse order. *)
Lemma last_settlement_is_published_witness :
  result (run localNetworks localEndpoints localAddresses [Settled 1%nat; Settled 0%nat]
            twoInFlight)
  = LoadingOrError NOT_SUPPORTED.
Proof.
  eapply (last_settlement_is_published localNetworks localEndpoints localAddresses twoInFlight
            0%nat 1%nat).
  - lia.
  - vm_compute. reflexivity.
  - vm_compute. reflexivity.
  - vm_compute. reflexivity.
  - vm_compute. reflexivity.
  - vm_compute. reflexivity.
  - vm_compute. reflexivity.
Defined.

(** * Further properties of the source *)

(** ** The resolution function *)

(** The attempt to read the connection as a base-chain connection either
    publishes one pairing with the wallet on the base side, or fails
    without publishing. *)
Lemma baseInterpretation_publication util rpc fmt p a requested (w : World) :
  ((baseInterpretation util rpc fmt p a requested w).1 = Some tt
   ∧ ∃ pairing,
       published (baseInterpretation util rpc fmt p a requested w).2
       = Connected pairing :: published w
       ∧ isConnectedToArbitrum pairing = false)
  ∨ ((baseInterpretation util rpc fmt p a requested w).1 = None
     ∧ published (baseInterpretation util rpc fmt p a requested w).2
       = published w).
Proof.
  unfold baseInterpretation, connectedToL1, getL1Network, getL2Network,
    addCustomNetwork, getSigner, setResult, andThen, ofOption, resolve, reject.
  simpl. repeat (case_match; simplify_eq/=); eauto 10.
Qed.

(** X2: a run of [update] calls [setResult] at most once.  On a wallet
    whose [getNetwork()] rejects it rejects and changes nothing; without a
    requested rollup it publishes [not_supported]; when the base-chain
    interpretation succeeds it publishes that pairing, with the wallet on
    the base side; when it fails, the run publishes [not_supported] if
    the wallet's chain differs from the requested rollup, and otherwise
    rejects without publishing: no pairing with the wallet on the rollup
    side is ever published. *)
Theorem update_publication_cases util rpc fmt sel p a (w : World) :
  match w_chainId p with
  | None => update util rpc fmt sel p a w = (None, w)
  | Some c =>
      match requestedL2ChainId util sel c with
      | None =>
          update util rpc fmt sel p a w
          = (Some tt,
             {| registry := registry w;
                registered := registered w;
                published := LoadingOrError NOT_SUPPORTED :: published w |})
      | Some requested =>
          match (baseInterpretation util rpc fmt p a requested w).1 with
          | Some _ =>
              update util rpc fmt sel p a w
              = baseInterpretation util rpc fmt p a requested w
              ∧ ∃ pairing,
                  published (update util rpc fmt sel p a w).2
                  = Connected pairing :: published w
                  ∧ isConnectedToArbitrum pairing = false
          | None =>
              published (baseInterpretation util rpc fmt p a requested w).2
              = published w
              ∧ update util rpc fmt sel p a w
                = if decide (c = requested) then
                    (None, (baseInterpretation util rpc fmt p a requested w).2)
                  else
                    (Some tt,
                     {| registry :=
                          registry (baseInterpretation util rpc fmt p a requested w).2;
                        registered :=
                          registered (baseInterpretation util rpc fmt p a requested w).2;
                        published := LoadingOrError NOT_SUPPORTED :: published w |})
          end
      end
  end.
Proof.
  unfold update, andThen, ofOption, catch, resolve, reject. simpl.
  destruct (w_chainId p) as [c|] eqn:Hc; [| done].
  destruct (requestedL2ChainId util sel c) as [requested|] eqn:Hreq; [| done].
  destruct (baseInterpretation_publication util rpc fmt p a requested w)
    as [(Hok & pairing & Hpub & Hside) | (Hfail & Hpub)].
  - destruct (baseInterpretation util rpc fmt p a requested w) as [[[]|] w'];
      [| done]. simpl in *. eauto.
  - destruct (baseInterpretation util rpc fmt p a requested w) as [[[]|] w'];
      [done |]. simpl in *. split; [done |].
    unfold rollupInterpretation, awaitOutsideAsync, andThen, setResult, reject.
    destruct (decide (c = requested)) as [-> | Hne].
    + by rewrite Z.eqb_refl.
    + assert ((c =? requested)%Z = false) as -> by by apply Z.eqb_neq.
      simpl. by rewrite Hpub.
Qed.

(** The three settled cases on the local network: a wallet on the base
    chain, on the requested rollup, and on an unknown chain. *)
Lemma update_publication_cases_witness :
  (∃ pairing,
     published
       (update localNetworks localEndpoints localAddresses (Some 412346)
          (walletOn 0 1337) sampleAccount
          {| registry := seededRegistry; registered := []; published := [] |}).2
     = [Connected pairing])
  ∧ update localNetworks localEndpoints localAddresses (Some 412346)
      (walletOn 0 412346) sampleAccount
      {| registry := seededRegistry; registered := []; published := [] |}
    = (None, {| registry := seededRegistry; registered := []; published := [] |})
  ∧ published
      (update localNetworks localEndpoints localAddresses (Some 412346)
         (walletOn 0 999999) sampleAccount
         {| registry := seededRegistry; registered := []; published := [] |}).2
    = [LoadingOrError NOT_SUPPORTED].
Proof.
  split; [| split].
  - pose proof (update_publication_cases localNetworks localEndpoints
                  localAddresses (Some 412346) (walletOn 0 1337) sampleAccount
                  {| registry := seededRegistry; registered := [];
                     published := [] |}) as H.
    cbn [w_chainId walletOn requestedL2ChainId] in H.
    destruct (baseInterpretation _ _ _ _ _ _ _).1 eqn:Hbase in H;
      [| by vm_compute in Hbase].
    destruct H as (_ & pairing & Hpub & _). by exists pairing.
  - pose proof (update_publication_cases localNetworks localEndpoints
                  localAddresses (Some 412346) (walletOn 0 412346) sampleAccount
                  {| registry := seededRegistry; registered := [];
                     published := [] |}) as H.
    cbn [w_chainId walletOn requestedL2ChainId] in H.
    destruct (baseInterpretation _ _ _ _ _ _ _).1 eqn:Hbase in H;
      [by vm_compute in Hbase |].
    destruct H as (_ & ->). reflexivity.
  - pose proof (update_publication_cases localNetworks localEndpoints
                  localAddresses (Some 412346) (walletOn 0 999999) sampleAccount
                  {| registry := seededRegistry; registered := [];
                     published := [] |}) as H.
    cbn [w_chainId walletOn requestedL2ChainId] in H.
    destruct (baseInterpretation _ _ _ _ _ _ _).1 eqn:Hbase in H;
      [by vm_compute in Hbase |].
    destruct H as (_ & ->). reflexivity.
Defined.

(** X3: when the wallet's chain has no entry in the default table and no
    rollup was selected, or when the chain is not a base chain partnering
    with the requested rollup and is not the requested rollup either,
    [update] publishes [not_supported] and leaves the registry as it was:
    nothing is registered on these paths. *)
Theorem not_supported_without_registration util rpc fmt sel p a (w : World) c :
  w_chainId p = Some c →
  requestedL2ChainId util sel c = None
  ∨ (∃ requested,
       requestedL2ChainId util sel c = Some requested
       ∧ lookupBase (registry w) c requested = None
       ∧ c ≠ requested) →
  update util rpc fmt sel p a w
  = (Some tt,
     {| registry := registry w;
        registered := registered w;
        published := LoadingOrError NOT_SUPPORTED :: published w |}).
Proof.
  intros Hc Hpath. unfold_update. rewrite Hc. promise_simpl.
  destruct Hpath as [-> | (requested & -> & Hbase & Hne)]; [done |].
  promise_simpl. rewrite Hbase. promise_simpl.
  assert ((c =? requested)%Z = false) as -> by by apply Z.eqb_neq.
  reflexivity.
Qed.

(** A wallet on the unknown chain 999999 and no selected rollup. *)
Lemma not_supported_without_registration_witness :
  registry
    (update localNetworks localEndpoints localAddresses None (walletOn 0 999999) sampleAccount
       {| registry := emptyRegistry; registered := []; published := [] |}).2
  = emptyRegistry.
Proof.
  rewrite (not_supported_without_registration localNetworks localEndpoints localAddresses None
             (walletOn 0 999999) sampleAccount _ 999999);
    [reflexivity | reflexivity | left; reflexivity].
Defined.

(** X4: when the wallet is on a base chain that partners with the
    requested rollup but the endpoint that [rpcURLs] lists for the rollup
    does not answer, [update] publishes [not_supported]; the fixed pair
    has been registered by then and stays in the registry. *)
Theorem endpoint_failure_after_registration util rpc fmt sel p a reg c requested b :
  w_chainId p = Some c →
  requestedL2ChainId util sel c = Some requested →
  lookupBase reg c requested = Some b →
  rpc (rpcURLs util !! requested) = None →
  c ≠ requested →
  outcome util rpc fmt sel p a reg = Some (LoadingOrError NOT_SUPPORTED)
  ∧ registrations util rpc fmt sel p a reg
    = [(customL1Network_then, customL2Network_then)]
  ∧ registry
      (update util rpc fmt sel p a
         {| registry := reg; registered := []; published := [] |}).2
    = register (customL1Network_then, customL2Network_then) reg.
Proof.
  intros Hc Hreq Hbase Hrpc Hne. unfold_update. rewrite Hc. promise_simpl.
  rewrite Hreq. promise_simpl. rewrite Hbase. promise_simpl.
  rewrite Hrpc. promise_simpl.
  assert ((c =? requested)%Z = false) as -> by by apply Z.eqb_neq.
  done.
Qed.

(** The local network with both nodes down. *)
Lemma endpoint_failure_after_registration_witness :
  outcome localNetworks (λ _, None) localAddresses (Some 412346) (walletOn 0 1337) sampleAccount
    seededRegistry = Some (LoadingOrError NOT_SUPPORTED)
  ∧ registrations localNetworks (λ _, None) localAddresses (Some 412346) (walletOn 0 1337)
      sampleAccount seededRegistry
    = [(customL1Network_then, customL2Network_then)].
Proof.
  destruct (endpoint_failure_after_registration localNetworks (λ _, None) localAddresses
              (Some 412346) (walletOn 0 1337) sampleAccount seededRegistry
              1337 412346 customL1Network_then)
    as (Hout & Hreg & _);
    [reflexivity | reflexivity | reflexivity | reflexivity | discriminate |].
  split; assumption.
Defined.

(** X5: the wallet address only keys signers.  For two addresses that
    the formatter accepts, the runs of [update] make the same
    registrations and publish the same result, except that the signer
    derived from a direct-RPC provider holds the other formatted address.
    For an address that the formatter rejects, the registrations are the
    same too, but no pairing is published. *)
Theorem address_only_keys_signers util rpc fmt sel p a a' reg :
  (∀ formatted formatted',
     fmt a = Some formatted → fmt a' = Some formatted' →
     outcome util rpc fmt sel p a' reg
     = rekey formatted' <$> outcome util rpc fmt sel p a reg)
  ∧ (fmt a = None →
     ∀ pairing, outcome util rpc fmt sel p a reg ≠ Some (Connected pairing))
  ∧ registrations util rpc fmt sel p a' reg = registrations util rpc fmt sel p a reg
  ∧ registry
      (update util rpc fmt sel p a'
         {| registry := reg; registered := []; published := [] |}).2
    = registry
        (update util rpc fmt sel p a
           {| registry := reg; registered := []; published := [] |}).2.
Proof.
  split; [| split].
  - intros formatted formatted' Hf Hf'. unfold_update. simpl.
    rewrite Hf, Hf'.
    repeat (case_match; simplify_eq/=); done.
  - intros Hf pairing. unfold_update. simpl. rewrite Hf.
    repeat (case_match; simplify_eq/=); done.
  - unfold_update. simpl.
    repeat (case_match; simplify_eq/=); done.
Qed.

(** The two accounts of the local network, and a string that is no
    address. *)
Lemma address_only_keys_signers_witness :
  outcome localNetworks localEndpoints localAddresses (Some 412346)
    (walletOn 0 1337) otherAccount seededRegistry
  = rekey otherAccount
      <$> outcome localNetworks localEndpoints localAddresses (Some 412346)
            (walletOn 0 1337) sampleAccount seededRegistry
  ∧ outcome localNetworks localEndpoints localAddresses (Some 412346)
      (walletOn 0 1337) "0xabc" seededRegistry
    = Some (LoadingOrError NOT_SUPPORTED).
Proof.
  split.
  - destruct (address_only_keys_signers localNetworks localEndpoints
                localAddresses (Some 412346) (walletOn 0 1337) sampleAccount
                otherAccount seededRegistry) as (H & _).
    apply (H sampleAccount otherAccount); reflexivity.
  - destruct (address_only_keys_signers localNetworks localEndpoints
                localAddresses (Some 412346) (walletOn 0 1337) "0xabc"
                otherAccount seededRegistry) as (_ & H & _).
    specialize (H eq_refl).
    destruct (outcome localNetworks localEndpoints localAddresses (Some 412346)
                (walletOn 0 1337) "0xabc" seededRegistry)
      as [[s | pairing] |] eqn:Hout.
    + vm_compute in Hout. by injection Hout as <-.
    + by destruct (H pairing).
    + vm_compute in Hout. discriminate.
Defined.

(** ** The provider component, over its runs *)

(** What the renders after a call of [setResult] leave alone. *)
Lemma renders_frame (c : Component) :
  initial (renders c) = initial c
  ∧ pending (renders c) = pending c
  ∧ started (renders c) = started c
  ∧ registry (world (renders c)) = registry (world c)
  ∧ registered (world (renders c)) = registered (world c)
  ∧ (published (world (renders c)) = published (world c)
     ∨ published (world (renders c))
       = LoadingOrError NOT_CONNECTED :: published (world c)).
Proof.
  destruct (rendered c) as [d|] eqn:Hd.
  - destruct (renders_cases c d Hd)
      as (Hi & Hp & Hs & _ & [-> | (_ & _ & ->)] & _); simpl; eauto 10.
  - rewrite (renders_unmounted c Hd). eauto 10.
Qed.

Lemma updateEffect_Some (w : Wallet) p a :
  updateEffect w = Some (p, a) →
  wallet_provider w = Some p ∧ wallet_account w = Some a ∧ a ≠ "".
Proof.
  unfold updateEffect.
  destruct (wallet_provider w), (wallet_account w), (wallet_network w);
    try done.
  case_bool_decide; [done |]. by intros [= -> ->].
Qed.

(** What one commit leaves alone, and the one call of [update] that it can
    make. *)
Lemma commit_frame sel w (c : Component) :
  initial (commit sel w c) = initial c
  ∧ registry (world (commit sel w c)) = registry (world c)
  ∧ registered (world (commit sel w c)) = registered (world c)
  ∧ (published (world (commit sel w c)) = published (world c)
     ∨ published (world (commit sel w c))
       = LoadingOrError NOT_CONNECTED :: published (world c))
  ∧ ((pending (commit sel w c) = pending c
      ∧ started (commit sel w c) = started c)
     ∨ (∃ p a,
          updateEffect w = Some (p, a)
          ∧ updateDepsChanged (rendered c) sel w = true
          ∧ pending (commit sel w c)
            = <[started c := {| a_selectedL2ChainId := sel;
                                a_web3Provider := p;
                                a_address := a |}]> (pending c)
          ∧ started (commit sel w c) = S (started c))).
Proof.
  unfold commit.
  destruct (resetEffect (wallet_account w) (result c)) as [r'|] eqn:E.
  - apply resetEffect_Some in E as (-> & _ & _).
    destruct (resetDepsChanged _ _ _), (updateDepsChanged _ _ _) eqn:?,
      (updateEffect w) as [[p a]|] eqn:?; simpl; eauto 15.
  - destruct (resetDepsChanged _ _ _), (updateDepsChanged _ _ _) eqn:?,
      (updateEffect w) as [[p a]|] eqn:?; simpl; eauto 15.
Qed.

(** A run of [update] changes the registry by registering the fixed pair,
    or not at all. *)
Lemma update_registry util rpc fmt sel p a (w : World) :
  registry (update util rpc fmt sel p a w).2 = registry w
  ∨ registry (update util rpc fmt sel p a w).2
    = register (customL1Network_then, customL2Network_then) (registry w).
Proof.
  destruct (update_frame util rpc fmt sel p a w) as (_ & -> & _ & _).
  unfold_update. simpl.
  change customL1Network_catch with customL1Network_then.
  change customL2Network_catch with customL2Network_then.
  repeat (case_match; simplify_eq/=); rewrite ?register_idem; eauto.
Qed.

Lemma step_registry util rpc fmt (e : Event) (c : Component) :
  registry (world (step util rpc fmt e c)) = registry (world c)
  ∨ registry (world (step util rpc fmt e c))
    = register (customL1Network_then, customL2Network_then) (registry (world c)).
Proof.
  destruct e as [sel w | n | connection]; simpl.
  - destruct (renders_frame (commit sel w c)) as (_ & _ & _ & -> & _).
    destruct (commit_frame sel w c) as (_ & -> & _). by left.
  - destruct (pending c !! n) as [a|]; [| by left].
    destruct (renders_frame (settle util rpc fmt n a c)) as (_ & _ & _ & -> & _).
    simpl. apply update_registry.
  - destruct (tryConnect connection) as [r|]; [| by left].
    destruct (renders_frame (publish r c)) as (_ & _ & _ & -> & _). by left.
Qed.

(** X6: whatever happens to the component, its registry is the one it was
    mounted with, or that one with the fixed pair registered: resolutions
    repeat the same registration and never add or replace anything else. *)
Theorem registry_only_gains_fixed_pair util rpc fmt (es : list Event) (c : Component) :
  registry (world (run util rpc fmt es c)) = registry (world c)
  ∨ registry (world (run util rpc fmt es c))
    = register (customL1Network_then, customL2Network_then) (registry (world c)).
Proof.
  revert c. induction es as [|e es IH]; intros c; [by left |].
  change (run util rpc fmt (e :: es) c) with (run util rpc fmt es (step util rpc fmt e c)).
  destruct (IH (step util rpc fmt e c)) as [-> | ->],
    (step_registry util rpc fmt e c) as [-> | ->];
    rewrite ?register_idem; eauto.
Qed.

(** X7: an attempt in flight stays in flight until its own promise chain
    settles: no render, no change of wallet state, no settlement of
    another attempt and no connection outcome cancels or replaces it. *)
Theorem in_flight_attempt_is_kept util rpc fmt (e : Event) (c : Component) n a :
  pending c !! n = Some a →
  (n < started c)%nat →
  e ≠ Settled n →
  pending (step util rpc fmt e c) !! n = Some a.
Proof.
  intros Hn Hlt He. destruct e as [sel w | m | connection]; simpl.
  - destruct (renders_frame (commit sel w c)) as (_ & -> & _).
    destruct (commit_frame sel w c)
      as (_ & _ & _ & _ & [[-> _] | (p & a' & _ & _ & -> & _)]); [done |].
    rewrite lookup_insert_ne by lia. done.
  - destruct (pending c !! m) as [a'|] eqn:Hm; [| done].
    destruct (renders_frame (settle util rpc fmt m a' c)) as (_ & -> & _).
    simpl. rewrite lookup_delete_ne; [done |]. by intros ->.
  - destruct (tryConnect connection) as [r|]; [| done].
    destruct (renders_frame (publish r c)) as (_ & -> & _). done.
Qed.

(** The first attempt of [twoInFlight] survives the locking of the
    wallet. *)
Lemma in_flight_attempt_is_kept_witness :
  a_web3Provider
    <$> pending (step localNetworks localEndpoints localAddresses
                   (WalletState (Some 412346) lockedWallet) twoInFlight)
        !! 0%nat
  = Some (walletOn 0 999999).
Proof.
  rewrite (in_flight_attempt_is_kept localNetworks localEndpoints localAddresses
             (WalletState (Some 412346) lockedWallet) twoInFlight 0%nat
             {| a_selectedL2ChainId := Some 412346;
                a_web3Provider := walletOn 0 999999;
                a_address := sampleAccount |}).
  - reflexivity.
  - vm_compute. reflexivity.
  - vm_compute. lia.
  - discriminate.
Defined.

Lemma step_attemptsNumbered util rpc fmt (e : Event) (c : Component) :
  attemptsNumbered c → attemptsNumbered (step util rpc fmt e c).
Proof.
  intros Hinv. destruct e as [sel w | m | connection]; simpl.
  - intros n a. destruct (renders_frame (commit sel w c)) as (_ & -> & -> & _).
    destruct (commit_frame sel w c)
      as (_ & _ & _ & _ & [[-> ->] | (p & a' & Heff & _ & -> & ->)]);
      [apply Hinv |].
    apply updateEffect_Some in Heff as (_ & _ & Hne).
    intros [[<- <-] | [Hneq Hn]]%lookup_insert_Some.
    + split; [lia | done].
    + destruct (Hinv n a Hn). split; [lia | done].
  - destruct (pending c !! m) as [a'|] eqn:Hm; [| done].
    intros n a. destruct (renders_frame (settle util rpc fmt m a' c)) as (_ & -> & -> & _).
    simpl. intros [_ Hn]%lookup_delete_Some. by apply Hinv.
  - destruct (tryConnect connection) as [r|]; [| done].
    intros n a. destruct (renders_frame (publish r c)) as (_ & -> & -> & _).
    apply Hinv.
Qed.

(** X8: from the mounting on, every attempt in flight carries a number
    below the count of the calls of [update] made so far, and [update] was
    only called with a non-empty account address. *)
Theorem attempts_are_numbered util rpc fmt (es : list Event) web3Defined reg :
  attemptsNumbered (run util rpc fmt es (mount web3Defined reg)).
Proof.
  assert (∀ c, attemptsNumbered c → attemptsNumbered (run util rpc fmt es c)) as H.
  { induction es as [|e es IH]; intros c Hc; [done |].
    apply IH. by apply step_attemptsNumbered. }
  apply H. intros n a Hn. simpl in Hn. by rewrite lookup_empty in Hn.
Qed.

Lemma update_published_wellTyped util rpc fmt sel p a (w : World) :
  published (update util rpc fmt sel p a w).2 = published w
  ∨ ∃ r, published (update util rpc fmt sel p a w).2 = r :: published w
         ∧ wellTyped r.
Proof.
  destruct (update_frame util rpc fmt sel p a w) as (_ & _ & _ & ->).
  destruct (update_publication util rpc fmt sel p a (registry w))
    as [-> | (r & -> & [-> | [pairing ->]])];
    [by left | right; eexists; split; done ..].
Qed.

Lemma step_resultsWellTyped util rpc fmt (e : Event) (c : Component) :
  resultsWellTyped c → resultsWellTyped (step util rpc fmt e c).
Proof.
  intros [Hinit Hpub]. unfold resultsWellTyped.
  assert (wellTyped (LoadingOrError NOT_CONNECTED)) as Hnc by done.
  destruct e as [sel w | m | connection]; simpl.
  - destruct (renders_frame (commit sel w c)) as (-> & _ & _ & _ & _ & Hp).
    destruct (commit_frame sel w c) as (-> & _ & _ & Hp' & _).
    split; [done |].
    destruct Hp as [-> | ->], Hp' as [-> | ->]; repeat constructor; done.
  - destruct (pending c !! m) as [a|] eqn:Hm; [| done].
    destruct (renders_frame (settle util rpc fmt m a c)) as (-> & _ & _ & _ & _ & Hp).
    simpl in *. split; [done |].
    assert (Forall wellTyped
              (published
                 (update util rpc fmt (a_selectedL2ChainId a) (a_web3Provider a)
                    (a_address a) (world c)).2)) as Hupd.
    { destruct (update_published_wellTyped util rpc fmt (a_selectedL2ChainId a)
                  (a_web3Provider a) (a_address a) (world c))
        as [-> | (r & -> & Hr)]; [done | by constructor]. }
    destruct Hp as [-> | ->]; [done | by constructor].
  - destruct connection as [provider|]; simpl; [done |].
    destruct (renders_frame (publish (LoadingOrError NOT_CONNECTED) c))
      as (-> & _ & _ & _ & _ & Hp).
    simpl in *. split; [done |].
    destruct Hp as [-> | ->]; repeat constructor; done.
Qed.

Lemma result_wellTyped (c : Component) :
  resultsWellTyped c → wellTyped (result c).
Proof.
  intros [Hinit Hpub]. unfold result.
  destruct (published (world c)) as [|r rs]; [done |].
  by apply Forall_cons in Hpub as [? _].
Qed.

(** X9: from the mounting on, the [result] state respects its union
    type: the fallback render prop is called with [loading],
    [not_connected] or [not_supported], never with [connected], and the
    children are rendered exactly when the status is [connected], with
    the current pairing as the context value. *)
Theorem fallback_never_gets_connected util rpc fmt (es : list Event) web3Defined reg :
  match render (result (run util rpc fmt es (mount web3Defined reg))) with
  | Fallback s =>
      s = status (result (run util rpc fmt es (mount web3Defined reg)))
      ∧ s ≠ CONNECTED
  | ContextProvider value =>
      result (run util rpc fmt es (mount web3Defined reg)) = Connected value
      ∧ status (result (run util rpc fmt es (mount web3Defined reg))) = CONNECTED
  end.
Proof.
  assert (∀ c, resultsWellTyped c → resultsWellTyped (run util rpc fmt es c)) as H.
  { induction es as [|e es IH]; intros c Hc; [done |].
    apply IH. by apply step_resultsWellTyped. }
  assert (wellTyped (result (run util rpc fmt es (mount web3Defined reg)))) as Hr.
  { apply result_wellTyped, H. split; [| constructor].
    simpl. unfold initialResult, wellTyped. by destruct web3Defined. }
  destruct (result _) as [s | value]; simpl; [| done].
  split; [done |]. intros ->. by apply Hr.
Qed.

Lemma rerender_fixed_synced (c : Component) (d : Deps) :
  rendered c = Some d → rerender c = c → d_result d = result c.
Proof.
  intros Hd Hfix. destruct (decide (d_result d = result c)) as [|Hne]; [done |].
  destruct (rerender_changed c d Hd Hne) as (_ & _ & _ & Hr & _).
  rewrite Hfix, Hd in Hr. by injection Hr as ->.
Qed.

Lemma commit_idle sel w (c : Component) (d : Deps) :
  rendered c = Some d →
  d_selectedL2ChainId d = sel → d_wallet d = w → d_result d = result c →
  commit sel w c = c.
Proof.
  intros Hd <- <- Hr. unfold commit.
  rewrite Hd, updateDepsChanged_same.
  assert (resetDepsChanged (Some d) (d_wallet d) (result c) = false) as ->.
  { unfold resetDepsChanged. by rewrite !bool_decide_eq_true_2. }
  rewrite <- Hr. destruct c, d; simpl in *. by rewrite Hd.
Qed.

(** X10: a render that brings the same property and the same wallet values
    as the render before it changes nothing: no effect runs, no call of
    [update] is made, the result stays. *)
Theorem same_values_render_is_idle util rpc fmt sel w (c : Component) :
  step util rpc fmt (WalletState sel w) (step util rpc fmt (WalletState sel w) c)
  = step util rpc fmt (WalletState sel w) c.
Proof.
  change (step util rpc fmt (WalletState sel w) c) with (renders (commit sel w c)).
  set (c' := renders (commit sel w c)).
  destruct (commit_cases sel w c) as (_ & Hr & _).
  destruct (renders_cases _ _ Hr)
    as (_ & _ & _ & (d' & Hd' & Hwal & Hsel) & _ & Hfix).
  fold c' in Hd', Hfix. simpl in Hwal, Hsel.
  pose proof (rerender_fixed_synced c' d' Hd' Hfix) as Hsync.
  change (step util rpc fmt (WalletState sel w) c') with (renders (commit sel w c')).
  rewrite (commit_idle sel w c' d' Hd' Hsel Hwal Hsync).
  unfold renders. by rewrite !Hfix.
Qed.

(** X11: when a render brings an account that differs from the account of
    the render before it, with provider, account and network present, the
    whole of [update] is called again: one new attempt is put in flight,
    with the selected rollup, the provider and the new address. *)
Theorem account_switch_restarts_resolution util rpc fmt sel w (c : Component) p a :
  (∀ d, rendered c = Some d → wallet_account (d_wallet d) ≠ Some a) →
  wallet_provider w = Some p →
  wallet_account w = Some a →
  a ≠ "" →
  is_Some (wallet_network w) →
  pending (step util rpc fmt (WalletState sel w) c)
  = <[started c := {| a_selectedL2ChainId := sel;
                      a_web3Provider := p;
                      a_address := a |}]> (pending c)
  ∧ started (step util rpc fmt (WalletState sel w) c) = S (started c).
Proof.
  intros Hprev Hp Ha Hne [net Hnet].
  change (step util rpc fmt (WalletState sel w) c) with (renders (commit sel w c)).
  destruct (renders_frame (commit sel w c)) as (_ & -> & -> & _).
  assert (updateEffect w = Some (p, a)) as Heff.
  { unfold updateEffect. rewrite Hp, Ha, Hnet.
    by rewrite bool_decide_eq_false_2. }
  assert (updateDepsChanged (rendered c) sel w = true) as Hdeps.
  { unfold updateDepsChanged. destruct (rendered c) as [d|] eqn:Hd; [| done].
    rewrite (bool_decide_eq_false_2
               (wallet_account (d_wallet d) = wallet_account w)).
    - simpl. by rewrite orb_true_r.
    - rewrite Ha. by apply Hprev. }
  unfold commit. rewrite Heff, Hdeps.
  destruct (resetDepsChanged _ _ _); [destruct (resetEffect _ _) |]; done.
Qed.

(** The connected component of the local network sees another account. *)
Lemma account_switch_restarts_resolution_witness :
  started (step localNetworks localEndpoints localAddresses
             (WalletState (Some 412346) (walletState 0 1337 otherAccount))
             connectedComponent)
  = S (started connectedComponent).
Proof.
  destruct (account_switch_restarts_resolution localNetworks localEndpoints localAddresses
              (Some 412346) (walletState 0 1337 otherAccount) connectedComponent
              (walletOn 0 1337) otherAccount) as (_ & Hstarted).
  - intros d Hd. vm_compute in Hd. injection Hd as <-. discriminate.
  - reflexivity.
  - reflexivity.
  - discriminate.
  - by eexists.
  - exact Hstarted.
Defined.

(** ** The connection attempt *)

(** X12: a wallet that sets several flags is named by the first of
    MetaMask, Coinbase Wallet and WalletConnect; a connection that
    resolves never changes the result and is tracked exactly when one of
    the flags is set; a connection that rejects publishes [not_connected]
    and tracks nothing. *)
Theorem connect_outcome_tracking (connection : option ExternalProvider) :
  (tryConnect connection = Some (LoadingOrError NOT_CONNECTED) ↔ connection = None)
  ∧ (tryConnect connection = None ↔ is_Some connection)
  ∧ (connection = None → trackedEvent connection = None)
  ∧ (∀ p, connection = Some p →
       (isMetaMask p = true →
          trackedEvent connection = Some "Connect Wallet Click: MetaMask")
       ∧ (isMetaMask p = false → isCoinbaseWallet p = true →
          trackedEvent connection = Some "Connect Wallet Click: Coinbase Wallet")
       ∧ (isMetaMask p = false → isCoinbaseWallet p = false →
          isWalletConnect p = true →
          trackedEvent connection = Some "Connect Wallet Click: WalletConnect")
       ∧ (trackedEvent connection = None ↔
          isMetaMask p = false ∧ isCoinbaseWallet p = false
          ∧ isWalletConnect p = false)).
Proof.
  split; [| split; [| split]].
  - destruct connection; simpl; split; done.
  - destruct connection; simpl; split; try done;
      try (by eexists); by intros [? ?].
  - by intros ->.
  - intros p ->. unfold trackedEvent, getProviderName.
    destruct (isMetaMask p), (isCoinbaseWallet p), (isWalletConnect p);
      simpl; repeat split; try done; by intros (? & ? & ?).
Qed.

(** A wallet that sets both the MetaMask and the Coinbase flag. *)
Lemma connect_outcome_tracking_witness :
  trackedEvent
    (Some {| isMetaMask := true; isCoinbaseWallet := true;
             isWalletConnect := false |})
  = Some "Connect Wallet Click: MetaMask".
Proof.
  destruct (connect_outcome_tracking
              (Some {| isMetaMask := true; isCoinbaseWallet := true;
                       isWalletConnect := false |}))
    as (_ & _ & _ & H).
  destruct (H _ eq_refl) as (Hmeta & _). apply Hmeta. reflexivity.
Defined.

(** ** The withdrawal card *)

(** X13: the card asks the bridge to add a token exactly when the
    transaction carries a non-empty token address that [bridgeTokens] does
    not hold; once [bridgeTokens] holds the address, it asks no more. *)
Theorem add_token_only_when_unknown {T} (bridgeTokens : gmap string T)
    (tx : MergedTransaction) (a : string) :
  (addTokenEffect bridgeTokens tx = Some a ↔
   tokenAddress tx = Some a ∧ a ≠ "" ∧ bridgeTokens !! a = None)
  ∧ (∀ t, tokenAddress tx = Some a →
          addTokenEffect (<[a := t]> bridgeTokens) tx = None).
Proof.
  split.
  - unfold addTokenEffect.
    destruct (tokenAddressPresent tx) as [a'|] eqn:Hp.
    + apply tokenAddressPresent_Some in Hp as [Ht Hne]. rewrite Ht.
      destruct (bridgeTokens !! a') eqn:Hl; split.
      * done.
      * intros ([= ->] & _ & Hnone). by rewrite Hnone in Hl.
      * by intros [= ->].
      * by intros ([= ->] & _ & _).
    + split; [done |]. intros (Ht & Hne & _).
      assert (tokenAddressPresent tx = Some a) as Hsome
        by by apply tokenAddressPresent_Some.
      by rewrite Hsome in Hp.
  - intros t Ht. unfold addTokenEffect.
    destruct (tokenAddressPresent tx) as [a'|] eqn:Hp; [| done].
    apply tokenAddressPresent_Some in Hp as [Ht' _].
    rewrite Ht in Ht'. injection Ht' as <-. by rewrite lookup_insert_eq.
Qed.

(** A token withdrawal on a bridge that does not know the token, and on
    one that does. *)
Lemma add_token_only_when_unknown_witness :
  addTokenEffect (∅ : gmap string unit) tokenWithdrawal = Some "0xtoken"
  ∧ addTokenEffect (<["0xtoken" := tt]> (∅ : gmap string unit)) tokenWithdrawal
    = None.
Proof.
  destruct (add_token_only_when_unknown (∅ : gmap string unit)
              tokenWithdrawal "0xtoken") as (Hadd & Hknown).
  split.
  - apply Hadd. split; [reflexivity | split; [discriminate | reflexivity]].
  - apply Hknown. reflexivity.
Defined.

Lemma cardRun_disarmed (mss : list N) (c : Card) :
  timeout c = None → cardRun (Elapsed <$> mss) c = c.
Proof.
  intros Hc. induction mss as [|ms mss IH]; [done |].
  simpl. by rewrite Hc.
Qed.

(** What the passing of time does to an armed timeout. *)
Lemma cardRun_armed (mss : list N) (c : Card) remaining txId :
  timeout c = Some (remaining, txId) →
  (0 < remaining)%N →
  cardRun (Elapsed <$> mss) c
  = if (remaining <=? elapsedTotal (Elapsed <$> mss))%N then
      {| timeout := None;
         cardDeps := cardDeps c;
         dispatched := SetTxAsSeen txId :: dispatched c |}
    else
      {| timeout := Some ((remaining - elapsedTotal (Elapsed <$> mss))%N, txId);
         cardDeps := cardDeps c;
         dispatched := dispatched c |}.
Proof.
  revert c remaining. induction mss as [|ms mss IH]; intros c remaining Hc Hpos.
  - simpl. destruct (N.leb_spec remaining 0); [lia |].
    rewrite N.sub_0_r. destruct c; simpl in *. by rewrite Hc.
  - change (cardRun (Elapsed <$> ms :: mss) c)
      with (cardRun (Elapsed <$> mss) (cardStep (Elapsed ms) c)).
    change (elapsedTotal (Elapsed <$> ms :: mss))
      with (ms + elapsedTotal (Elapsed <$> mss))%N.
    simpl. rewrite Hc. destruct (N.leb_spec remaining ms) as [Hle | Hgt].
    + rewrite cardRun_disarmed by done.
      destruct (N.leb_spec remaining (ms + elapsedTotal (Elapsed <$> mss)));
        [done | lia].
    + rewrite (IH _ (remaining - ms)%N) by (simpl; first [done | lia]). simpl.
      destruct (N.leb_spec (remaining - ms) (elapsedTotal (Elapsed <$> mss))),
        (N.leb_spec remaining (ms + elapsedTotal (Elapsed <$> mss)));
        try lia; [done |].
      by rewrite N.sub_add_distr.
Qed.

(** A card rendered with [txId] and left alone for a while. *)
Lemma mounted_card (txId : string) (before : list N) :
  cardRun (Elapsed <$> before) (cardStep (CardRendered txId) noCard)
  = if (seenDelay <=? elapsedTotal (Elapsed <$> before))%N then
      {| timeout := None;
         cardDeps := Some txId;
         dispatched := [SetTxAsSeen txId] |}
    else
      {| timeout := Some ((seenDelay - elapsedTotal (Elapsed <$> before))%N, txId);
         cardDeps := Some txId;
         dispatched := [] |}.
Proof. by rewrite (cardRun_armed before _ seenDelay txId). Qed.

(** X14: a card rendered with [txId] dispatches [set_tx_as_seen] for it
    once, when 60000 milliseconds have passed since that render, and
    nothing before.  A later render with the same [txId] does not re-arm
    the timeout: the 60000 milliseconds still count from the first render.
    A later render with another [txId] clears the timeout and arms a new
    one: the new identifier is dispatched 60000 milliseconds after that
    render, whatever time had passed before, and the old one only if its
    timeout had run out before the render.  After the card is unmounted
    nothing more is dispatched. *)
Theorem seen_timeout (txId : string) (before after : list N) :
  dispatched (cardRun (Elapsed <$> before) (cardStep (CardRendered txId) noCard))
  = (if (60000 <=? elapsedTotal (Elapsed <$> before))%N
     then [SetTxAsSeen txId] else [])
  ∧ dispatched
      (cardRun (Elapsed <$> after)
         (cardStep (CardRendered txId)
            (cardRun (Elapsed <$> before) (cardStep (CardRendered txId) noCard))))
    = (if (60000 <=? elapsedTotal (Elapsed <$> before)
                     + elapsedTotal (Elapsed <$> after))%N
       then [SetTxAsSeen txId] else [])
  ∧ (∀ txId', txId' ≠ txId →
       dispatched
         (cardRun (Elapsed <$> after)
            (cardStep (CardRendered txId')
               (cardRun (Elapsed <$> before)
                  (cardStep (CardRendered txId) noCard))))
       = ((if (60000 <=? elapsedTotal (Elapsed <$> after))%N
           then [SetTxAsSeen txId'] else [])
          ++ (if (60000 <=? elapsedTotal (Elapsed <$> before))%N
              then [SetTxAsSeen txId] else []))%list)
  ∧ dispatched
      (cardRun (Elapsed <$> after)
         (cardStep CardUnmounted
            (cardRun (Elapsed <$> before) (cardStep (CardRendered txId) noCard))))
    = (if (60000 <=? elapsedTotal (Elapsed <$> before))%N
       then [SetTxAsSeen txId] else []).
Proof.
  rewrite (mounted_card txId before). change seenDelay with 60000%N.
  set (tb := elapsedTotal (Elapsed <$> before)).
  set (ta := elapsedTotal (Elapsed <$> after)).
  split; [| split; [| split]].
  - by destruct (N.leb_spec 60000 tb).
  - assert (∀ c, cardDeps c = Some txId → cardStep (CardRendered txId) c = c)
      as Hsame.
    { intros c Hc. simpl. by rewrite bool_decide_eq_true_2. }
    destruct (N.leb_spec 60000 tb) as [Hb | Hb]; rewrite Hsame by done.
    + rewrite cardRun_disarmed by done.
      destruct (N.leb_spec 60000 (tb + ta)); [done | lia].
    + rewrite (cardRun_armed after _ (60000 - tb)%N txId); [| done | simpl; lia].
      fold ta. simpl.
      destruct (N.leb_spec (60000 - tb) ta), (N.leb_spec 60000 (tb + ta));
        first [done | lia].
  - intros txId' Hne.
    assert (∀ c, cardDeps c = Some txId →
                 cardStep (CardRendered txId') c
                 = {| timeout := Some (seenDelay, txId');
                      cardDeps := Some txId';
                      dispatched := dispatched c |}) as Hchange.
    { intros c Hc. simpl. rewrite Hc.
      rewrite bool_decide_eq_false_2; [done |]. by intros [= ->]. }
    destruct (N.leb_spec 60000 tb) as [Hb | Hb];
      rewrite Hchange by done;
      rewrite (cardRun_armed after _ seenDelay txId') by done;
      fold ta; change seenDelay with 60000%N;
      by destruct (N.leb_spec 60000 ta).
  - destruct (N.leb_spec 60000 tb) as [Hb | Hb];
      by rewrite cardRun_disarmed.
Qed.

(** A card whose transaction changes after 30000 milliseconds, and one that
    is only rendered again: after 30000 more milliseconds the first has
    dispatched nothing, the second its identifier. *)
Lemma seen_timeout_witness :
  dispatched
    (cardRun (Elapsed <$> [30000%N])
       (cardStep (CardRendered "0xb")
          (cardRun (Elapsed <$> [30000%N])
             (cardStep (CardRendered "0xa") noCard))))
  = []
  ∧ dispatched
      (cardRun (Elapsed <$> [30000%N])
         (cardStep (CardRendered "0xa")
            (cardRun (Elapsed <$> [30000%N])
               (cardStep (CardRendered "0xa") noCard))))
    = [SetTxAsSeen "0xa"].
Proof.
  destruct (seen_timeout "0xa" [30000%N] [30000%N]) as (_ & Hsame & Hchange & _).
  split.
  - rewrite (Hchange "0xb"); [reflexivity | discriminate].
  - rewrite Hsame. reflexivity.
Defined.

(** ** Connected results and the account *)

Lemma renders_resets (c : Component) (d : Deps) :
  rendered c = Some d →
  d_result d ≠ result c →
  wallet_account (d_wallet d) = None →
  status (result c) = CONNECTED →
  result (renders c) = LoadingOrError NOT_CONNECTED.
Proof.
  intros Hd Hne Hacc Hconn.
  destruct (rerender_changed c d Hd Hne) as (Hi & _ & _ & Hr & Hw).
  rewrite (proj2 (resetEffect_Some _ _ (LoadingOrError NOT_CONNECTED))) in Hw
    by done.
  assert (result (rerender c) = LoadingOrError NOT_CONNECTED) as Hres
    by by eapply result_after_setResult.
  unfold renders.
  destruct (rerender_changed (rerender c) _ Hr) as (Hi' & _ & _ & _ & Hw').
  { simpl. rewrite Hres. intros Heq. by rewrite Heq in Hconn. }
  rewrite Hres, resetEffect_not_connected in Hw' by done.
  by rewrite (result_unchanged (rerender c) (rerender (rerender c)) Hi' Hw').
Qed.

Lemma renders_settled (c : Component) (d : Deps) :
  rendered c = Some d →
  (d_result d = result c → wallet_account (d_wallet d) = None →
   status (result c) ≠ CONNECTED) →
  settledRender (renders c).
Proof.
  intros Hd Hsynced d' Hd'.
  destruct (renders_cases c d Hd)
    as (Hi & _ & _ & (d'' & Hd'' & Hwal & _) & _ & Hfix).
  rewrite Hd' in Hd''. injection Hd'' as <-.
  split; [by apply rerender_fixed_synced |].
  rewrite Hwal. intros Hacc.
  destruct (decide (d_result d = result c)) as [Heq | Hne].
  - unfold renders. rewrite !(rerender_same c d) by done. by apply Hsynced.
  - destruct (decide (status (result c) = CONNECTED)) as [Hconn | Hnot].
    + by rewrite (renders_resets c d).
    + destruct (renders_quiet c d Hd) as (Hw & _ & _ & Hi' & _).
      { by apply resetEffect_not_connected. }
      by rewrite (result_unchanged c (renders c) Hi' Hw).
Qed.

Lemma commit_result sel w (c : Component) :
  result (commit sel w c)
  = if resetDepsChanged (rendered c) w (result c) then
      match resetEffect (wallet_account w) (result c) with
      | Some r' => r'
      | None => result c
      end
    else result c.
Proof.
  unfold commit.
  destruct (resetDepsChanged (rendered c) w (result c)),
    (resetEffect (wallet_account w) (result c)),
    (updateDepsChanged (rendered c) sel w),
    (updateEffect w) as [[? ?]|]; reflexivity.
Qed.

Lemma step_settledRender util rpc fmt (e : Event) (c : Component) :
  settledRender c → settledRender (step util rpc fmt e c).
Proof.
  intros Hinv. destruct e as [sel w | n | [provider|]]; simpl.
  - destruct (commit_cases sel w c) as (_ & Hr & _).
    apply (renders_settled _ _ Hr). simpl. intros Hsame Hacc Hconn.
    rewrite <- Hsame in Hconn. rewrite commit_result in Hsame.
    assert (resetEffect (wallet_account w) (result c)
            = Some (LoadingOrError NOT_CONNECTED)) as Hreset
      by by apply resetEffect_Some.
    rewrite Hreset in Hsame.
    destruct (resetDepsChanged (rendered c) w (result c)) eqn:Hdeps.
    + by rewrite Hsame in Hconn.
    + unfold resetDepsChanged in Hdeps.
      destruct (rendered c) as [d|] eqn:Hd; [| done].
      apply orb_false_elim in Hdeps as [Hacc' Hres'].
      apply negb_false_iff, bool_decide_eq_true in Hacc'.
      destruct (Hinv d Hd) as [_ Hnot]. apply Hnot; [| done].
      by rewrite Hacc'.
  - destruct (pending c !! n) as [a|] eqn:Hn; [| done].
    destruct (rendered c) as [d|] eqn:Hd.
    + apply (renders_settled (settle util rpc fmt n a c) d Hd).
      intros Hsame Hacc. destruct (Hinv d Hd) as [Hsync Hnot].
      rewrite <- Hsame, Hsync. by apply Hnot.
    + rewrite renders_unmounted by done. intros d'. simpl. by rewrite Hd.
  - done.
  - destruct (rendered c) as [d|] eqn:Hd.
    + apply (renders_settled (publish (LoadingOrError NOT_CONNECTED) c) d Hd).
      intros _ _. by unfold result.
    + rewrite renders_unmounted by done. intros d'. simpl. by rewrite Hd.
Qed.

Lemma run_settledRender util rpc fmt (es : list Event) web3Defined reg :
  settledRender (run util rpc fmt es (mount web3Defined reg)).
Proof.
  assert (∀ c, settledRender c → settledRender (run util rpc fmt es c)) as H.
  { induction es as [|e es IH]; intros c Hc; [done |].
    apply IH. by apply step_settledRender. }
  apply H. intros d'. simpl. done.
Qed.

(** X15: from the mounting on, once the renders that follow an event have
    run, the result is not connected while the account of the last render
    is undefined, in whatever order the events arrive.  In between, the
    pairing of a call of [update] that settles after the account
    disappeared is rendered once, context provider and children, and the
    render that follows shows the fallback with [not_connected]. *)
Theorem no_connected_result_without_account util rpc fmt (es : list Event)
    web3Defined reg d :
  rendered (run util rpc fmt es (mount web3Defined reg)) = Some d →
  wallet_account (d_wallet d) = None →
  status (result (run util rpc fmt es (mount web3Defined reg))) ≠ CONNECTED
  ∧ ∀ n a pairing,
      pending (run util rpc fmt es (mount web3Defined reg)) !! n = Some a →
      outcome util rpc fmt (a_selectedL2ChainId a) (a_web3Provider a)
        (a_address a)
        (registry (world (run util rpc fmt es (mount web3Defined reg))))
      = Some (Connected pairing) →
      render (result (settle util rpc fmt n a
                        (run util rpc fmt es (mount web3Defined reg))))
      = ContextProvider pairing
      ∧ render (result (step util rpc fmt (Settled n)
                          (run util rpc fmt es (mount web3Defined reg))))
        = Fallback NOT_CONNECTED.
Proof.
  intros Hd Hacc.
  set (c := run util rpc fmt es (mount web3Defined reg)) in *.
  destruct (run_settledRender util rpc fmt es web3Defined reg d Hd)
    as [Hsync Hnot]. fold c in Hsync, Hnot.
  split; [by apply Hnot |].
  intros n a pairing Hn Hout.
  assert (result (settle util rpc fmt n a c) = Connected pairing) as Hsettled.
  { unfold result. simpl.
    destruct (update_frame util rpc fmt (a_selectedL2ChainId a)
                (a_web3Provider a) (a_address a) (world c)) as (_ & _ & _ & ->).
    unfold outcome in Hout. destruct (published _) as [|r rs]; [done |].
    simpl in Hout. by injection Hout as ->. }
  split; [by rewrite Hsettled |].
  simpl. rewrite Hn.
  rewrite (renders_resets (settle util rpc fmt n a c) d); [done | done | | done |].
  - rewrite Hsync, Hsettled. intros Heq. apply Hnot; [done |]. by rewrite Heq.
  - by rewrite Hsettled.
Qed.

(** The resolution of the local network settles after the wallet was
    locked. *)
Lemma no_connected_result_without_account_witness :
  status (result
    (run localNetworks localEndpoints localAddresses
       [WalletState (Some 412346) (walletState 0 1337 sampleAccount);
        WalletState (Some 412346) lockedWallet;
        Settled 0%nat]
       (mount true seededRegistry))) ≠ CONNECTED
  ∧ (∃ pairing,
       render (result
         (settle localNetworks localEndpoints localAddresses 0%nat
            {| a_selectedL2ChainId := Some 412346;
               a_web3Provider := walletOn 0 1337;
               a_address := sampleAccount |}
            (run localNetworks localEndpoints localAddresses
               [WalletState (Some 412346) (walletState 0 1337 sampleAccount);
                WalletState (Some 412346) lockedWallet]
               (mount true seededRegistry))))
       = ContextProvider pairing)
  ∧ render (result
      (run localNetworks localEndpoints localAddresses
         [WalletState (Some 412346) (walletState 0 1337 sampleAccount);
          WalletState (Some 412346) lockedWallet;
          Settled 0%nat]
         (mount true seededRegistry)))
    = Fallback NOT_CONNECTED.
Proof.
  split.
  - eapply (no_connected_result_without_account localNetworks localEndpoints
              localAddresses
              [WalletState (Some 412346) (walletState 0 1337 sampleAccount);
               WalletState (Some 412346) lockedWallet;
               Settled 0%nat] true seededRegistry).
    + vm_compute. reflexivity.
    + reflexivity.
  - edestruct (no_connected_result_without_account localNetworks localEndpoints
                 localAddresses
                 [WalletState (Some 412346) (walletState 0 1337 sampleAccount);
                  WalletState (Some 412346) lockedWallet] true seededRegistry)
      as (_ & H); [vm_compute; reflexivity | reflexivity |].
    edestruct (H 0%nat) as (Hfirst & Hsecond);
      [vm_compute; reflexivity | vm_compute; reflexivity |].
    split; [eexists; exact Hfirst | exact Hsecond].
Defined.
